(** * The unpooling layer of video-caffe

    A shallow embedding of [src/caffe/layers/unpooling_layer.cpp] and of the
    blob-count declarations of [include/caffe/layers/cudnn_unpooling_layer.hpp],
    with the properties of the layer stated and proved over it.

    Conventions.
    - A C++ [int] is a [Z].  Signed overflow is undefined behaviour in C++;
      where the code computes with [int]s ([Reshape]) the arithmetic is
      checked and an overflow makes the operation undefined ([None]).
    - A buffer ([cpu_data], [cpu_diff]) is a [list Dtype]; a pointer into it
      is a [Z] offset.  An access outside the buffer is undefined ([None]).
    - A [vector<Blob*>] is a [list Blob]; [bottom[i]] past its end is
      undefined ([None]).
    - A failed glog [CHECK] aborts: [LayerSetUp] returns [inl] of the check
      that failed.
    - A kernel, pad or stride field of the configuration is a [uint32], as
      in the parameter messages of Caffe, and the layer keeps it in an
      [int] member: the assignment converts, and a value above [INT_MAX]
      becomes negative.
    - The reshape of a blob to a negative axis size is a fatal failure:
      [Reshape] does not return ([None]). *)

From stdpp Require Import base option list numbers.

Local Open Scope Z_scope.

(** ** Machine integers *)

Definition INT_MIN : Z := - 2 ^ 31.
Definition INT_MAX : Z := 2 ^ 31 - 1.
Definition UINT32_MAX : Z := 2 ^ 32 - 1.

(** The result of an [int] operation: defined when it is representable. *)
Definition int (z : Z) : option Z :=
  if (INT_MIN <=? z) && (z <=? INT_MAX) then Some z else None.

(** The conversion of a [uint32] to [int], as in [kernel_h_ =
    unpool_param.kernel_h()]: the value modulo [2 ^ 32] in the range of
    [int].  Values up to [INT_MAX] are kept, the values above it wrap to
    the negative ones. *)
Definition int_of_uint32 (v : Z) : Z := (v + 2 ^ 31) mod 2 ^ 32 - 2 ^ 31.

Arguments int_of_uint32 : simpl never.

(** ** Configuration *)

(** The protobuf message [UnpoolingParameter]: every field is optional,
    [has_f] is presence and the accessor [f()] yields the field's declared
    default when it is absent.  A field holds a [uint32]: a value from 0
    to [UINT32_MAX]. *)
Record UnpoolingParameter := mkParam {
  kernel_size : option Z;
  kernel_h : option Z;
  kernel_w : option Z;
  pad : option Z;
  pad_h : option Z;
  pad_w : option Z;
  stride : option Z;
  stride_h : option Z;
  stride_w : option Z
}.

(** The defaults are declared in [caffe.proto], which is not part of the
    sources at hand; they are taken as a parameter. *)
Record ProtoDefaults := mkDefaults {
  default_kernel_size : Z;
  default_kernel_h : Z;
  default_kernel_w : Z;
  default_pad : Z;
  default_pad_h : Z;
  default_pad_w : Z;
  default_stride : Z;
  default_stride_h : Z;
  default_stride_w : Z
}.

Definition has (f : option Z) : bool :=
  match f with Some _ => true | None => false end.

Definition get (d : Z) (f : option Z) : Z :=
  match f with Some v => v | None => d end.

(** ** Layer state *)

(** The member fields of [UnpoolingLayer] that the four operations use. *)
Record Layer := mkLayer {
  kernel_h_ : Z;
  kernel_w_ : Z;
  stride_h_ : Z;
  stride_w_ : Z;
  pad_h_ : Z;
  pad_w_ : Z;
  channels_ : Z;
  height_ : Z;
  width_ : Z;
  unpooled_height_ : Z;
  unpooled_width_ : Z
}.

Definition set_kernel (l : Layer) (kh kw : Z) : Layer :=
  mkLayer kh kw (stride_h_ l) (stride_w_ l) (pad_h_ l) (pad_w_ l)
          (channels_ l) (height_ l) (width_ l)
          (unpooled_height_ l) (unpooled_width_ l).

Definition set_pad (l : Layer) (ph pw : Z) : Layer :=
  mkLayer (kernel_h_ l) (kernel_w_ l) (stride_h_ l) (stride_w_ l) ph pw
          (channels_ l) (height_ l) (width_ l)
          (unpooled_height_ l) (unpooled_width_ l).

Definition set_stride (l : Layer) (sh sw : Z) : Layer :=
  mkLayer (kernel_h_ l) (kernel_w_ l) sh sw (pad_h_ l) (pad_w_ l)
          (channels_ l) (height_ l) (width_ l)
          (unpooled_height_ l) (unpooled_width_ l).

(** ** LayerSetUp *)

(** One constructor per [CHECK] of [LayerSetUp], in source order. *)
Inductive SetUpError :=
  | FilterSizeNotBoth      (* line 19 *)
  | FilterBothRequired     (* line 22 *)
  | PadSpec                (* line 25 *)
  | StrideSpec             (* line 29 *)
  | FilterHeightZero       (* line 40 *)
  | FilterWidthZero        (* line 41 *)
  | PadHeightNotLess       (* line 58 *)
  | PadWidthNotLess.       (* line 59 *)

Definition SetUp (A : Type) : Type := (SetUpError + A)%type.

Definition CHECK {A} (cond : bool) (e : SetUpError) (k : SetUp A) : SetUp A :=
  if cond then k else inl e.

Notation "'CHECK!' c 'else' e ;; k" := (CHECK c e k)
  (at level 10, c at level 0, e at level 0, k at level 200,
   format "'[v' 'CHECK!'  c  'else'  e  ;;  '/' k ']'").

Section SetUp.

Variable dflt : ProtoDefaults.

(** Lines 34-39. *)
Definition resolve_kernel (p : UnpoolingParameter) : Z * Z :=
  if has (kernel_size p)
  then (int_of_uint32 (get (default_kernel_size dflt) (kernel_size p)),
        int_of_uint32 (get (default_kernel_size dflt) (kernel_size p)))
  else (int_of_uint32 (get (default_kernel_h dflt) (kernel_h p)),
        int_of_uint32 (get (default_kernel_w dflt) (kernel_w p))).

(** Lines 43-48. *)
Definition resolve_pad (p : UnpoolingParameter) : Z * Z :=
  if negb (has (pad_h p))
  then (int_of_uint32 (get (default_pad dflt) (pad p)),
        int_of_uint32 (get (default_pad dflt) (pad p)))
  else (int_of_uint32 (get (default_pad_h dflt) (pad_h p)),
        int_of_uint32 (get (default_pad_w dflt) (pad_w p))).

(** Lines 51-56. *)
Definition resolve_stride (p : UnpoolingParameter) : Z * Z :=
  if negb (has (stride_h p))
  then (int_of_uint32 (get (default_stride dflt) (stride p)),
        int_of_uint32 (get (default_stride dflt) (stride p)))
  else (int_of_uint32 (get (default_stride_h dflt) (stride_h p)),
        int_of_uint32 (get (default_stride_w dflt) (stride_w p))).

(** [UnpoolingLayer::LayerSetUp], lines 15-61.  The layer's parameter is
    [unpool_param]; the blobs are not used. *)
Definition LayerSetUp (unpool_param : UnpoolingParameter) (l : Layer)
  : SetUp Layer :=
  CHECK! (xorb (negb (has (kernel_size unpool_param)))
               (negb (has (kernel_h unpool_param)
                      && has (kernel_w unpool_param))))
    else FilterSizeNotBoth ;;
  CHECK! (has (kernel_size unpool_param)
          || (has (kernel_h unpool_param) && has (kernel_w unpool_param)))
    else FilterBothRequired ;;
  CHECK! ((negb (has (pad unpool_param)) && has (pad_h unpool_param)
           && has (pad_w unpool_param))
          || (negb (has (pad_h unpool_param))
              && negb (has (pad_w unpool_param))))
    else PadSpec ;;
  CHECK! ((negb (has (stride unpool_param)) && has (stride_h unpool_param)
           && has (stride_w unpool_param))
          || (negb (has (stride_h unpool_param))
              && negb (has (stride_w unpool_param))))
    else StrideSpec ;;
  let l := set_kernel l (resolve_kernel unpool_param).1
                        (resolve_kernel unpool_param).2 in
  CHECK! (0 <? kernel_h_ l) else FilterHeightZero ;;
  CHECK! (0 <? kernel_w_ l) else FilterWidthZero ;;
  let l := set_pad l (resolve_pad unpool_param).1
                     (resolve_pad unpool_param).2 in
  let l := set_stride l (resolve_stride unpool_param).1
                        (resolve_stride unpool_param).2 in
  if negb (pad_h_ l =? 0) || negb (pad_w_ l =? 0) then
    CHECK! (pad_h_ l <? kernel_h_ l) else PadHeightNotLess ;;
    CHECK! (pad_w_ l <? kernel_w_ l) else PadWidthNotLess ;;
    inr l
  else inr l.

End SetUp.

(** ** Blobs *)

(** A 4-axis tensor with its value buffer and its gradient buffer. *)
Record Blob (Dtype : Type) := mkBlob {
  num : Z;
  channels : Z;
  height : Z;
  width : Z;
  cpu_data : list Dtype;
  cpu_diff : list Dtype
}.

Arguments mkBlob {Dtype} _ _ _ _ _ _.
Arguments num {Dtype} _.
Arguments channels {Dtype} _.
Arguments height {Dtype} _.
Arguments width {Dtype} _.
Arguments cpu_data {Dtype} _.
Arguments cpu_diff {Dtype} _.

Definition count {Dtype} (b : Blob Dtype) : Z :=
  num b * channels b * height b * width b.

(** Modelled from the spec: [Blob::offset] is declared in [blob.hpp], which
    is missing.  The spec has buffers that are contiguous with known
    per-axis strides, and a pointer that advances across per-channel slices
    by [offset(0, 1)]: the row-major offset of element [(n, c, h, w)]. *)
Definition offset {Dtype} (b : Blob Dtype) (n c h w : Z) : Z :=
  ((n * channels b + c) * height b + h) * width b + w.

Definition set_data {Dtype} (b : Blob Dtype) (d : list Dtype) : Blob Dtype :=
  mkBlob (num b) (channels b) (height b) (width b) d (cpu_diff b).

Definition set_diff {Dtype} (b : Blob Dtype) (d : list Dtype) : Blob Dtype :=
  mkBlob (num b) (channels b) (height b) (width b) (cpu_data b) d.

(** ** Loops and memory *)

(** [for (int i = i0; ...; ++i) body] run for [k] iterations. *)
Fixpoint for_loop {St : Type} (k : nat) (i : Z) (body : Z -> St -> option St)
  (s : St) : option St :=
  match k with
  | O => Some s
  | S k' => s' ← body i s; for_loop k' (i + 1) body s'
  end.

(** [for (int i = 0; i < bound; ++i) body]. *)
Definition for_int {St : Type} (bound : Z) (body : Z -> St -> option St)
  (s : St) : option St :=
  for_loop (Z.to_nat bound) 0 body s.

Section Kernel.

Context {Dtype : Type}.

(** [Dtype(0)], and the conversion [const int mask_index = bottom_mask[index]]
    from [Dtype] to [int]. *)
Variable zero : Dtype.
Variable to_int : Dtype -> Z.

(** [p[a]] as an rvalue. *)
Definition load (buf : list Dtype) (a : Z) : option Dtype :=
  if 0 <=? a then buf !! Z.to_nat a else None.

(** [p[a] = v]. *)
Definition store (buf : list Dtype) (a : Z) (v : Dtype)
  : option (list Dtype) :=
  if (0 <=? a) && (a <? Z.of_nat (length buf))
  then Some (<[Z.to_nat a := v]> buf)
  else None.

(** Modelled from the spec: [caffe_set] is defined in [math_functions.cpp],
    which is missing.  The spec has it initialize the entire buffer of [n]
    elements to the given value. *)
Definition caffe_set (n : Z) (alpha : Dtype) (y : list Dtype)
  : option (list Dtype) :=
  if (Z.to_nat n <=? length y)%nat
  then Some (replicate (Z.to_nat n) alpha ++ drop (Z.to_nat n) y)
  else None.

(** Modelled from the spec: [Blob::Reshape] is defined in [blob.cpp], which
    is missing.  The spec has it set the four axis sizes and (re)allocate
    the backing storage, with no upper bound on the size, and makes a shape
    error fatal at reshape: on a negative axis size it does not return. *)
Definition Blob_Reshape (b : Blob Dtype) (n c h w : Z)
  : option (Blob Dtype) :=
  if (0 <=? n) && (0 <=? c) && (0 <=? h) && (0 <=? w)
  then Some (mkBlob n c h w (replicate (Z.to_nat (n * c * h * w)) zero)
                            (replicate (Z.to_nat (n * c * h * w)) zero))
  else None.

(** *** Reshape *)

(** [(dim - 1) * stride + kernel - 2 * pad] in [int] arithmetic. *)
Definition unpooled_dim (dim stride kernel pad : Z) : option Z :=
  a ← int (dim - 1);
  m ← int (a * stride);
  s ← int (m + kernel);
  p ← int (2 * pad);
  int (s - p).

Definition set_input_shape (l : Layer) (c h w : Z) : Layer :=
  mkLayer (kernel_h_ l) (kernel_w_ l) (stride_h_ l) (stride_w_ l)
          (pad_h_ l) (pad_w_ l) c h w
          (unpooled_height_ l) (unpooled_width_ l).

Definition set_unpooled (l : Layer) (uh uw : Z) : Layer :=
  mkLayer (kernel_h_ l) (kernel_w_ l) (stride_h_ l) (stride_w_ l)
          (pad_h_ l) (pad_w_ l) (channels_ l) (height_ l) (width_ l) uh uw.

(** [UnpoolingLayer::Reshape], lines 63-76. *)
Definition Reshape (l : Layer) (bottom top : list (Blob Dtype))
  : option (Layer * list (Blob Dtype)) :=
  b0 ← bottom !! 0%nat;
  let l := set_input_shape l (channels b0) (height b0) (width b0) in
  uh ← unpooled_dim (height_ l) (stride_h_ l) (kernel_h_ l) (pad_h_ l);
  uw ← unpooled_dim (width_ l) (stride_w_ l) (kernel_w_ l) (pad_w_ l);
  let l := set_unpooled l uh uw in
  t0 ← top !! 0%nat;
  t0 ← Blob_Reshape t0 (num b0) (channels_ l)
         (unpooled_height_ l) (unpooled_width_ l);
  Some (l, <[0%nat := t0]> top).

(** *** Forward and backward *)

(** The three moving pointers of a pass and the buffer it writes:
    [src] is the pointer into the buffer read ([bottom_data] forward,
    [top_diff] backward), [dst] the pointer into the buffer written
    ([top_data] forward, [bottom_diff] backward), [msk] is [bottom_mask]. *)
Record Cursor := mkCursor {
  src : Z;
  dst : Z;
  msk : Z;
  buf : list Dtype
}.

Definition set_buf (st : Cursor) (b : list Dtype) : Cursor :=
  mkCursor (src st) (dst st) (msk st) b.

(** Lines 104-106 and 136-138. *)
Definition advance (st : Cursor) (dsrc ddst dmsk : Z) : Cursor :=
  mkCursor (src st + dsrc) (dst st + ddst) (msk st + dmsk) (buf st).

(** Lines 99-100: [top_data[bottom_mask[index]] = bottom_data[index]]. *)
Definition scatter_at (bottom_data bottom_mask : list Dtype) (index : Z)
  (st : Cursor) : option Cursor :=
  m ← load bottom_mask (msk st + index);
  let mask_index := to_int m in
  v ← load bottom_data (src st + index);
  b ← store (buf st) (dst st + mask_index) v;
  Some (set_buf st b).

(** Lines 130-131: [bottom_diff[index] = top_diff[bottom_mask[index]]]. *)
Definition gather_at (top_diff bottom_mask : list Dtype) (index : Z)
  (st : Cursor) : option Cursor :=
  m ← load bottom_mask (msk st + index);
  let mask_index := to_int m in
  v ← load top_diff (src st + mask_index);
  b ← store (buf st) (dst st + index) v;
  Some (set_buf st b).

(** [UnpoolingLayer::Forward_cpu], lines 81-109.  The pointers advance at
    the end of the body of the loop over [c]. *)
Definition Forward_cpu (l : Layer) (bottom top : list (Blob Dtype))
  : option (list (Blob Dtype)) :=
  b0 ← bottom !! 0%nat;
  t0 ← top !! 0%nat;
  let bottom_data := cpu_data b0 in
  let top_count := count t0 in
  top_data ← caffe_set top_count zero (cpu_data t0);
  b1 ← bottom !! 1%nat;
  let bottom_mask := cpu_data b1 in
  st ← for_int (num b0) (fun n st =>
          for_int (channels_ l) (fun c st =>
            st ← for_int (height_ l) (fun ph st =>
                    for_int (width_ l) (fun pw st =>
                      let index := ph * width_ l + pw in
                      scatter_at bottom_data bottom_mask index st) st) st;
            Some (advance st (offset b0 0 1 0 0) (offset t0 0 1 0 0)
                             (offset b1 0 1 0 0))) st)
        (mkCursor 0 0 0 top_data);
  Some (<[0%nat := set_data t0 (buf st)]> top).

(** [UnpoolingLayer::Backward_cpu], lines 111-140.  The brace of line 134
    closes the loop over [c]: the pointers advance at the end of the body
    of the loop over [n]. *)
Definition Backward_cpu (l : Layer) (top : list (Blob Dtype))
  (propagate_down : list bool) (bottom : list (Blob Dtype))
  : option (list (Blob Dtype)) :=
  pd ← propagate_down !! 0%nat;
  if negb pd then Some bottom else
  t0 ← top !! 0%nat;
  let top_diff := cpu_diff t0 in
  b0 ← bottom !! 0%nat;
  bottom_diff ← caffe_set (count b0) zero (cpu_diff b0);
  b1 ← bottom !! 1%nat;
  let bottom_mask := cpu_data b1 in
  st ← for_int (num t0) (fun n st =>
          st ← for_int (channels_ l) (fun c st =>
                  for_int (height_ l) (fun ph st =>
                    for_int (width_ l) (fun pw st =>
                      let index := ph * width_ l + pw in
                      gather_at top_diff bottom_mask index st) st) st) st;
          Some (advance st (offset t0 0 1 0 0) (offset b0 0 1 0 0)
                           (offset b1 0 1 0 0)))
        (mkCursor 0 0 0 bottom_diff);
  Some (<[0%nat := set_diff b0 (buf st)]> bottom).

End Kernel.

(** ** Blob counts declared by the cuDNN variants *)

(** The two classes of [cudnn_unpooling_layer.hpp]. *)
Inductive LayerClass :=
  | CuDNNUnpoolingLayer
  | CudnnNdUnpoolingLayer.

(** Lines 30 and 60. *)
Definition ExactNumBottomBlobs (c : LayerClass) : Z :=
  match c with
  | CuDNNUnpoolingLayer => 1
  | CudnnNdUnpoolingLayer => 1
  end.

(** Lines 31 and 61. *)
Definition ExactNumTopBlobs (c : LayerClass) : Z :=
  match c with
  | CuDNNUnpoolingLayer => 2
  | CudnnNdUnpoolingLayer => 1
  end.

(** ** Vocabulary of the properties *)

(** The either/or rule of a scalar field [s] and its per-axis pair [a], [b],
    as lines 25-32 check it: the pair without the scalar, or no per-axis
    field at all. *)
Definition either_or (s a b : option Z) : Prop :=
  (s = None ∧ is_Some a ∧ is_Some b) ∨ (a = None ∧ b = None).

(** The configuration [p] without its per-axis kernel fields. *)
Definition without_kernel_axes (p : UnpoolingParameter) : UnpoolingParameter :=
  mkParam (kernel_size p) None None (pad p) (pad_h p) (pad_w p)
          (stride p) (stride_h p) (stride_w p).

Definition fits_int (z : Z) : Prop := INT_MIN ≤ z ≤ INT_MAX.

(** No step of [(dim - 1) * stride + kernel - 2 * pad] overflows. *)
Definition dim_fits (dim stride kernel pad : Z) : Prop :=
  fits_int (dim - 1) ∧ fits_int ((dim - 1) * stride) ∧
  fits_int ((dim - 1) * stride + kernel) ∧ fits_int (2 * pad) ∧
  fits_int ((dim - 1) * stride + kernel - 2 * pad).

(** Inputs used to evaluate the operations. *)
Definition caffe_defaults : ProtoDefaults := mkDefaults 0 0 0 0 0 0 1 1 1.
Definition fresh_layer : Layer := mkLayer 0 0 0 0 0 0 0 0 0 0 0.

(** A layer reshaped for an input of 2 channels of 1 x 1, kernel 1,
    stride 1, no pad: the output is 1 x 1 per slice as well. *)
Definition two_channel_layer : Layer := mkLayer 1 1 1 1 0 0 2 1 1 1 1.

(** Feature map [3; 4] (one value per channel) and the mask that sends the
    single position of each slice to position 0 of its output slice. *)
Definition two_channel_input : Blob Z := mkBlob 1 2 1 1 [3; 4] [9; 9].
Definition two_channel_mask : Blob Z := mkBlob 1 2 1 1 [0; 0] [0; 0].

(** The [int] that a pass reads from the mask at address [a]. *)
Definition mask_index {Dtype : Type} (to_int : Dtype → Z)
  (bottom_mask : list Dtype) (a : Z) : option Z :=
  to_int <$> load bottom_mask a.

(** The value buffer of [b] has the size of its shape. *)
Definition data_sized {Dtype : Type} (b : Blob Dtype) : Prop :=
  0 ≤ num b ∧ 0 ≤ channels b ∧ 0 ≤ height b ∧ 0 ≤ width b ∧
  Z.of_nat (length (cpu_data b)) = count b.

(** What holds of the blobs before a forward pass: feature map [b0], mask
    [b1] and output [t0] have buffers of the size of their shapes, the mask
    has the shape of the feature map, the output has its batch size and
    channels, and the layer was reshaped for the feature map. *)
Definition forward_ready {Dtype : Type} (l : Layer) (b0 b1 t0 : Blob Dtype)
  : Prop :=
  data_sized b0 ∧ data_sized b1 ∧ data_sized t0 ∧
  (num b1, channels b1, height b1, width b1) =
  (num b0, channels b0, height b0, width b0) ∧
  num t0 = num b0 ∧ channels t0 = channels b0 ∧
  channels_ l = channels b0 ∧ height_ l = height b0 ∧ width_ l = width b0.

(** The gradient buffer of [b] has the size of its shape. *)
Definition diff_sized {Dtype : Type} (b : Blob Dtype) : Prop :=
  0 ≤ num b ∧ 0 ≤ channels b ∧ 0 ≤ height b ∧ 0 ≤ width b ∧
  Z.of_nat (length (cpu_diff b)) = count b.

(** What holds of the blobs before a backward pass, for output [t0],
    feature map [b0] and mask [b1]. *)
Definition backward_ready {Dtype : Type} (l : Layer) (t0 b0 b1 : Blob Dtype)
  : Prop :=
  diff_sized t0 ∧ diff_sized b0 ∧ data_sized b1 ∧
  (num b1, channels b1, height b1, width b1) =
  (num b0, channels b0, height b0, width b0) ∧
  num t0 = num b0 ∧ channels t0 = channels b0 ∧
  channels_ l = channels b0 ∧ height_ l = height b0 ∧ width_ l = width b0.

(** The scenario of kernel 2, stride 2, no pad on one 2 x 2 slice, whose
    output slice is 4 x 4; the mask sends two positions to index 5. *)
Definition scenario_layer : Layer := mkLayer 2 2 2 2 0 0 1 2 2 4 4.
Definition scenario_input : Blob Z :=
  mkBlob 1 1 2 2 [7; 8; 9; 10] (replicate 4 0).
Definition scenario_mask : Blob Z :=
  mkBlob 1 1 2 2 [0; 5; 5; 15] (replicate 4 0).
Definition scenario_output : Blob Z :=
  mkBlob 1 1 4 4 (replicate 16 1) (replicate 16 0).


(** The kernel rule that line 19 checks: the scalar without the complete
    per-axis pair, or the complete pair without the scalar. *)
Definition kernel_spec (p : UnpoolingParameter) : Prop :=
  (is_Some (kernel_size p) ∧
   ¬ (is_Some (kernel_h p) ∧ is_Some (kernel_w p))) ∨
  (kernel_size p = None ∧ is_Some (kernel_h p) ∧ is_Some (kernel_w p)).

(** A scalar field [s] mixed with its per-axis fields [a], [b], or a lone
    per-axis field: what the either/or rule excludes. *)
Definition mixed (s a b : option Z) : Prop :=
  (is_Some s ∧ (is_Some a ∨ is_Some b)) ∨
  (is_Some a ∧ b = None) ∨ (a = None ∧ is_Some b).

(** The layer [l] with the shape fields of [l0]. *)
Definition with_shape_of (l l0 : Layer) : Layer :=
  mkLayer (kernel_h_ l) (kernel_w_ l) (stride_h_ l) (stride_w_ l)
          (pad_h_ l) (pad_w_ l) (channels_ l0) (height_ l0) (width_ l0)
          (unpooled_height_ l0) (unpooled_width_ l0).

(** Within every slice of the mask, taken in memory order, the entries are
    pairwise distinct.  Slice [s] is batch item [n], channel [c] for
    [s = n * channels + c]. *)
Definition mask_distinct {Dtype : Type} (to_int : Dtype → Z)
  (b1 : Blob Dtype) : Prop :=
  ∀ s i j, 0 ≤ s < num b1 * channels b1 →
    0 ≤ i < j → j < height b1 * width b1 →
    mask_index to_int (cpu_data b1) (s * (height b1 * width b1) + i) ≠
    mask_index to_int (cpu_data b1) (s * (height b1 * width b1) + j).

(** The output blob of the scenario after a reshape to 1 x 1 x 4 x 4. *)
Definition scenario_reshaped : Blob Z :=
  mkBlob 1 1 4 4 (replicate 16 0) (replicate 16 0).

(** The scenario with a mask of distinct entries. *)
Definition scenario_mask_distinct : Blob Z :=
  mkBlob 1 1 2 2 [0; 5; 10; 15] (replicate 4 0).

(** An upstream gradient for the scenario: element [t] is [100 + t]. *)
Definition scenario_gradient : Blob Z :=
  mkBlob 1 1 4 4 (replicate 16 0)
    [100; 101; 102; 103; 104; 105; 106; 107;
     108; 109; 110; 111; 112; 113; 114; 115].

(** The shape conditions of a pass on concrete blobs. *)
Ltac shapes_ok :=
  unfold forward_ready, backward_ready, data_sized, diff_sized, count;
  simpl; repeat split; (lia || reflexivity).

(** Every entry of a concrete mask is in range. *)
Ltac mask_in_range :=
  let m := fresh "m" in
  let Hm := fresh "Hm" in
  intros m Hm; simpl in Hm;
  repeat (apply elem_of_cons in Hm as [->|Hm]; [simpl; lia|]);
  by apply elem_of_nil in Hm.

(** ** Conversion of the configured values *)

Lemma int_of_uint32_small (v : Z) : 0 ≤ v ≤ INT_MAX → int_of_uint32 v = v.
Proof.
  unfold int_of_uint32, INT_MAX. intros Hv.
  rewrite Z.mod_small; lia.
Qed.

Lemma int_of_uint32_large (v : Z) :
  INT_MAX < v ≤ UINT32_MAX → int_of_uint32 v = v - 2 ^ 32.
Proof.
  unfold int_of_uint32, INT_MAX, UINT32_MAX. intros Hv.
  replace (v + 2 ^ 31) with (v - 2 ^ 31 + 1 * 2 ^ 32) by lia.
  rewrite Z.mod_add by lia. rewrite Z.mod_small; lia.
Qed.

Lemma int_of_uint32_range (v : Z) : INT_MIN ≤ int_of_uint32 v ≤ INT_MAX.
Proof.
  unfold int_of_uint32, INT_MIN, INT_MAX.
  pose proof (Z.mod_pos_bound (v + 2 ^ 31) (2 ^ 32)). lia.
Qed.


(** ** Properties of LayerSetUp *)

Section SetUpFacts.

Variable dflt : ProtoDefaults.

(** The layer that [LayerSetUp] produces when no check fails. *)
Lemma LayerSetUp_inr (p : UnpoolingParameter) (l0 l : Layer) :
  LayerSetUp dflt p l0 = inr l →
  l = set_stride
        (set_pad (set_kernel l0 (resolve_kernel dflt p).1
                                (resolve_kernel dflt p).2)
                 (resolve_pad dflt p).1 (resolve_pad dflt p).2)
        (resolve_stride dflt p).1 (resolve_stride dflt p).2.
Proof.
  unfold LayerSetUp, CHECK. intros H.
  repeat match type of H with
         | (if ?c then _ else _) = _ => destruct c; try discriminate
         end; by inversion H.
Qed.

(** The checks of lines 19-32 passed. *)
Lemma LayerSetUp_spec_checks (p : UnpoolingParameter) (l0 l : Layer) :
  LayerSetUp dflt p l0 = inr l →
  xorb (negb (has (kernel_size p)))
       (negb (has (kernel_h p) && has (kernel_w p))) = true ∧
  either_or (pad p) (pad_h p) (pad_w p) ∧
  either_or (stride p) (stride_h p) (stride_w p).
Proof.
  unfold LayerSetUp, CHECK, either_or. intros H.
  destruct (xorb _ _); [|done]. split; [done|].
  destruct (has (kernel_size p) || _); [|done].
  destruct (pad p), (pad_h p), (pad_w p); simpl in H; try done;
    destruct (stride p), (stride_h p), (stride_w p); simpl in H; try done;
    split; eauto 6.
Qed.

(** The checks of lines 40-41 and 57-60 passed. *)
Lemma LayerSetUp_value_checks (p : UnpoolingParameter) (l0 l : Layer) :
  LayerSetUp dflt p l0 = inr l →
  0 < kernel_h_ l ∧ 0 < kernel_w_ l ∧
  (pad_h_ l ≠ 0 ∨ pad_w_ l ≠ 0 →
   pad_h_ l < kernel_h_ l ∧ pad_w_ l < kernel_w_ l).
Proof.
  intros H. pose proof (LayerSetUp_inr _ _ _ H) as ->.
  revert H. unfold LayerSetUp, CHECK. simpl.
  repeat match goal with
         | |- (if ?c then _ else _) = _ → _ =>
             let E := fresh "E" in destruct c eqn:E; try discriminate
         end; intros _; lia.
Qed.

(** When every check passes, the layer is set up. *)
Lemma LayerSetUp_accepts (p : UnpoolingParameter) (l0 : Layer) :
  xorb (negb (has (kernel_size p)))
       (negb (has (kernel_h p) && has (kernel_w p))) = true →
  either_or (pad p) (pad_h p) (pad_w p) →
  either_or (stride p) (stride_h p) (stride_w p) →
  0 < (resolve_kernel dflt p).1 → 0 < (resolve_kernel dflt p).2 →
  ((resolve_pad dflt p).1 ≠ 0 ∨ (resolve_pad dflt p).2 ≠ 0 →
   (resolve_pad dflt p).1 < (resolve_kernel dflt p).1 ∧
   (resolve_pad dflt p).2 < (resolve_kernel dflt p).2) →
  ∃ l, LayerSetUp dflt p l0 = inr l.
Proof.
  intros Hx Hp Hs Hh Hw Hpad. unfold LayerSetUp, CHECK. rewrite Hx.
  assert (has (kernel_size p) || has (kernel_h p) && has (kernel_w p) = true)
    as ->.
  { destruct (has (kernel_size p)), (has (kernel_h p)), (has (kernel_w p));
      done. }
  assert (negb (has (pad p)) && has (pad_h p) && has (pad_w p)
          || negb (has (pad_h p)) && negb (has (pad_w p)) = true) as ->.
  { destruct Hp as [(-> & [? ->] & [? ->])|[-> ->]]; by destruct (pad p). }
  assert (negb (has (stride p)) && has (stride_h p) && has (stride_w p)
          || negb (has (stride_h p)) && negb (has (stride_w p)) = true) as ->.
  { destruct Hs as [(-> & [? ->] & [? ->])|[-> ->]]; by destruct (stride p). }
  simpl.
  destruct (Z.ltb_spec 0 (resolve_kernel dflt p).1); [|lia].
  destruct (Z.ltb_spec 0 (resolve_kernel dflt p).2); [|lia].
  destruct (negb _ || negb _) eqn:E; [|eauto].
  destruct (Z.ltb_spec (resolve_pad dflt p).1 (resolve_kernel dflt p).1);
    [|lia].
  destruct (Z.ltb_spec (resolve_pad dflt p).2 (resolve_kernel dflt p).2);
    [|lia].
  eauto.
Qed.

(** Every configuration is either set up or rejected by a check. *)
Lemma LayerSetUp_total (p : UnpoolingParameter) (l0 : Layer) :
  (∃ l, LayerSetUp dflt p l0 = inr l) ∨ (∃ e, LayerSetUp dflt p l0 = inl e).
Proof. destruct (LayerSetUp dflt p l0); eauto. Qed.

End SetUpFacts.

(** ** Claims about LayerSetUp *)




(** C7: [LayerSetUp] rejects every configuration in which [kernel_size],
    [kernel_h] and [kernel_w] are all present, and every configuration in
    which [kernel_size] is absent and [kernel_h], [kernel_w] are not both
    present.  The check that fails is the first one. *)
Theorem C7_kernel_both_or_neither_rejected (dflt : ProtoDefaults)
    (p : UnpoolingParameter) (l0 : Layer) :
  (is_Some (kernel_size p) ∧ is_Some (kernel_h p) ∧ is_Some (kernel_w p)) ∨
  (kernel_size p = None ∧ ¬ (is_Some (kernel_h p) ∧ is_Some (kernel_w p))) →
  LayerSetUp dflt p l0 = inl FilterSizeNotBoth.
Proof.
  unfold LayerSetUp, CHECK.
  intros [([? ->] & [? ->] & [? ->])|[-> Hn]]; [done|].
  destruct (kernel_h p), (kernel_w p); try done.
  destruct Hn. split; eauto.
Qed.

Lemma C7_kernel_both_or_neither_rejected_witness :
  LayerSetUp caffe_defaults
    (mkParam (Some 2) (Some 2) (Some 2) None None None None None None)
    fresh_layer = inl FilterSizeNotBoth ∧
  LayerSetUp caffe_defaults
    (mkParam None (Some 2) None None None None None None None)
    fresh_layer = inl FilterSizeNotBoth.
Proof.
  split.
  - apply C7_kernel_both_or_neither_rejected. left. simpl. eauto.
  - apply C7_kernel_both_or_neither_rejected. right. simpl.
    split; [reflexivity|]. intros [_ [x Hx]]. discriminate Hx.
Defined.

(** C8: for every configuration that [LayerSetUp] accepts, the resolved
    kernel height and width are strictly positive and, if either resolved
    pad is nonzero, each pad is strictly less than the matching kernel
    dimension; every configuration whose resolved values violate this is
    rejected. *)
Theorem C8_kernel_positive_pad_below_kernel (dflt : ProtoDefaults)
    (p : UnpoolingParameter) (l0 : Layer) :
  (∀ l, LayerSetUp dflt p l0 = inr l →
     kernel_h_ l = (resolve_kernel dflt p).1 ∧
     kernel_w_ l = (resolve_kernel dflt p).2 ∧
     pad_h_ l = (resolve_pad dflt p).1 ∧
     pad_w_ l = (resolve_pad dflt p).2 ∧
     0 < kernel_h_ l ∧ 0 < kernel_w_ l ∧
     (pad_h_ l ≠ 0 ∨ pad_w_ l ≠ 0 →
      pad_h_ l < kernel_h_ l ∧ pad_w_ l < kernel_w_ l)) ∧
  (¬ (0 < (resolve_kernel dflt p).1 ∧ 0 < (resolve_kernel dflt p).2 ∧
      ((resolve_pad dflt p).1 ≠ 0 ∨ (resolve_pad dflt p).2 ≠ 0 →
       (resolve_pad dflt p).1 < (resolve_kernel dflt p).1 ∧
       (resolve_pad dflt p).2 < (resolve_kernel dflt p).2)) →
   ∃ e, LayerSetUp dflt p l0 = inl e).
Proof.
  split.
  - intros l H. pose proof (LayerSetUp_value_checks _ _ _ _ H) as Hv.
    pose proof (LayerSetUp_inr _ _ _ _ H) as Hl.
    rewrite Hl in Hv |- *. simpl in *. by repeat split; try apply Hv.
  - intros Hbad. destruct (LayerSetUp_total dflt p l0) as [[l H]|]; [|done].
    destruct Hbad. pose proof (LayerSetUp_value_checks _ _ _ _ H) as Hv.
    pose proof (LayerSetUp_inr _ _ _ _ H) as Hl.
    rewrite Hl in Hv. simpl in Hv. exact Hv.
Qed.

Lemma C8_kernel_positive_pad_below_kernel_witness :
  (∃ l, LayerSetUp caffe_defaults
          (mkParam (Some 3) None None (Some 1) None None None None None)
          fresh_layer = inr l ∧
        0 < kernel_h_ l ∧ 0 < kernel_w_ l ∧
        pad_h_ l < kernel_h_ l ∧ pad_w_ l < kernel_w_ l) ∧
  (∃ e, LayerSetUp caffe_defaults
          (mkParam (Some 2) None None None (Some 0) (Some 2) None None None)
          fresh_layer = inl e).
Proof.
  split.
  - eexists. split; [reflexivity|].
    destruct (C8_kernel_positive_pad_below_kernel caffe_defaults
                (mkParam (Some 3) None None (Some 1) None None None None None)
                fresh_layer) as [H _].
    destruct (H _ eq_refl) as (_ & _ & _ & _ & Hh & Hw & Hp).
    split; [exact Hh|]. split; [exact Hw|]. apply Hp. left.
    vm_compute. discriminate.
  - apply C8_kernel_positive_pad_below_kernel.
    intros (_ & _ & H). destruct H as [_ H].
    + right. vm_compute. discriminate.
    + vm_compute in H. discriminate H.
Defined.

(** C10: [LayerSetUp] accepts a configuration in which [kernel_size], a
    value from 1 to [INT_MAX], is present together with exactly one of
    [kernel_h] and [kernel_w] (the remaining checks passing): both resolved
    kernel dimensions are [kernel_size], and the result is the one of the
    same configuration without the lone per-axis field. *)
Theorem C10_lone_kernel_axis_ignored (dflt : ProtoDefaults)
    (p : UnpoolingParameter) (l0 : Layer) (k : Z) :
  kernel_size p = Some k →
  (is_Some (kernel_h p) ∧ kernel_w p = None) ∨
  (kernel_h p = None ∧ is_Some (kernel_w p)) →
  0 < k ≤ INT_MAX →
  either_or (pad p) (pad_h p) (pad_w p) →
  either_or (stride p) (stride_h p) (stride_w p) →
  ((resolve_pad dflt p).1 ≠ 0 ∨ (resolve_pad dflt p).2 ≠ 0 →
   (resolve_pad dflt p).1 < k ∧ (resolve_pad dflt p).2 < k) →
  ∃ l, LayerSetUp dflt p l0 = inr l ∧
       kernel_h_ l = k ∧ kernel_w_ l = k ∧
       LayerSetUp dflt (without_kernel_axes p) l0 = inr l.
Proof.
  intros Hk Hone Hpos Hp Hs Hpad.
  assert (resolve_kernel dflt p = (k, k)) as Hrk.
  { unfold resolve_kernel. rewrite Hk. simpl.
    by rewrite int_of_uint32_small by lia. }
  assert (resolve_kernel dflt (without_kernel_axes p) = (k, k)) as Hrk'.
  { unfold resolve_kernel. simpl. rewrite Hk. simpl.
    by rewrite int_of_uint32_small by lia. }
  destruct (LayerSetUp_accepts dflt p l0) as [l Hl];
    rewrite ?Hrk; simpl; try done; try lia.
  { rewrite Hk. destruct Hone as [[[? ->] ->]|[-> [? ->]]]; done. }
  destruct (LayerSetUp_accepts dflt (without_kernel_axes p) l0) as [l' Hl'];
    rewrite ?Hrk'; simpl; try done; try lia.
  { by rewrite Hk. }
  exists l. pose proof (LayerSetUp_inr _ _ _ _ Hl) as El.
  pose proof (LayerSetUp_inr _ _ _ _ Hl') as El'.
  split; [done|]. rewrite El, Hrk. simpl. split; [done|]. split; [done|].
  rewrite Hl', El', Hrk'. done.
Qed.

Lemma C10_lone_kernel_axis_ignored_witness :
  ∃ l, LayerSetUp caffe_defaults
         (mkParam (Some 2) (Some 7) None None None None None None None)
         fresh_layer = inr l ∧
       kernel_h_ l = 2 ∧ kernel_w_ l = 2 ∧
       LayerSetUp caffe_defaults
         (without_kernel_axes
            (mkParam (Some 2) (Some 7) None None None None None None None))
         fresh_layer = inr l.
Proof.
  apply (C10_lone_kernel_axis_ignored caffe_defaults
           (mkParam (Some 2) (Some 7) None None None None None None None)
           fresh_layer 2).
  - reflexivity.
  - left. simpl. eauto.
  - unfold INT_MAX. lia.
  - right. simpl. eauto.
  - right. simpl. eauto.
  - intros _. split; reflexivity.
Defined.

(** ** Reshape *)

Lemma int_Some (z r : Z) : int z = Some r ↔ fits_int z ∧ r = z.
Proof.
  unfold int, fits_int.
  destruct (Z.leb_spec INT_MIN z), (Z.leb_spec z INT_MAX); simpl; split.
  all: try (intros [= <-]; split; [lia|done]).
  all: try (intros [? ->]; first [done | lia]).
  all: try done.
Qed.

(** The checked computation is defined exactly when no step overflows, and
    then yields the formula. *)
Lemma unpooled_dim_Some (dim stride kernel pad u : Z) :
  unpooled_dim dim stride kernel pad = Some u ↔
  dim_fits dim stride kernel pad ∧
  u = (dim - 1) * stride + kernel - 2 * pad.
Proof.
  unfold unpooled_dim, dim_fits. split.
  - intros H.
    destruct (int (dim - 1)) as [a|] eqn:Ea; simpl in H; [|done].
    apply int_Some in Ea as [? ->].
    destruct (int ((dim - 1) * stride)) as [m|] eqn:Em; simpl in H; [|done].
    apply int_Some in Em as [? ->].
    destruct (int ((dim - 1) * stride + kernel)) as [s|] eqn:Es;
      simpl in H; [|done].
    apply int_Some in Es as [? ->].
    destruct (int (2 * pad)) as [q|] eqn:Eq; simpl in H; [|done].
    apply int_Some in Eq as [? ->].
    apply int_Some in H as [? ->]. done.
  - intros [(H1 & H2 & H3 & H4 & H5) ->].
    assert (∀ z, fits_int z → int z = Some z) as Hint.
    { intros z Hz. by apply int_Some. }
    rewrite (Hint _ H1). simpl. rewrite (Hint _ H2). simpl.
    rewrite (Hint _ H3). simpl. rewrite (Hint _ H4). simpl.
    by rewrite (Hint _ H5).
Qed.

(** The reshape of a blob returns exactly on axis sizes that are not
    negative. *)
Lemma Blob_Reshape_Some {Dtype : Type} (zero : Dtype) (b b' : Blob Dtype)
    (n c h w : Z) :
  Blob_Reshape zero b n c h w = Some b' ↔
  (0 ≤ n ∧ 0 ≤ c ∧ 0 ≤ h ∧ 0 ≤ w) ∧
  b' = mkBlob n c h w (replicate (Z.to_nat (n * c * h * w)) zero)
                      (replicate (Z.to_nat (n * c * h * w)) zero).
Proof.
  unfold Blob_Reshape.
  destruct (Z.leb_spec 0 n), (Z.leb_spec 0 c), (Z.leb_spec 0 h),
    (Z.leb_spec 0 w); simpl; split;
    try (intros [= <-]; done); try (intros [_ ->]; done);
    try done; intros [? _]; lia.
Qed.

(** C4: [Reshape] takes channels, height and width from the input tensor,
    sets each output spatial dimension to
    [(input_dim - 1) * stride + kernel - 2 * pad], and resizes the output
    tensor to (input batch, input channels, output height, output width),
    leaving kernel, stride and pad as they are; it does so whenever both
    vectors hold a blob, the [int] arithmetic of the formula does not
    overflow, and the batch size, the channels and the two output
    dimensions are not negative. *)
Theorem C4_Reshape_output_shape {Dtype : Type} (zero : Dtype) (l : Layer)
    (bottom top : list (Blob Dtype)) :
  (∀ l' top', Reshape zero l bottom top = Some (l', top') →
     ∃ b0 t0', bottom !! 0%nat = Some b0 ∧ top' !! 0%nat = Some t0' ∧
       unpooled_height_ l' =
         (height b0 - 1) * stride_h_ l + kernel_h_ l - 2 * pad_h_ l ∧
       unpooled_width_ l' =
         (width b0 - 1) * stride_w_ l + kernel_w_ l - 2 * pad_w_ l ∧
       channels_ l' = channels b0 ∧
       height_ l' = height b0 ∧ width_ l' = width b0 ∧
       num t0' = num b0 ∧ channels t0' = channels b0 ∧
       height t0' = unpooled_height_ l' ∧ width t0' = unpooled_width_ l' ∧
       (kernel_h_ l', kernel_w_ l', stride_h_ l', stride_w_ l',
        pad_h_ l', pad_w_ l') =
       (kernel_h_ l, kernel_w_ l, stride_h_ l, stride_w_ l,
        pad_h_ l, pad_w_ l) ∧
       drop 1 top' = drop 1 top) ∧
  (∀ b0, bottom !! 0%nat = Some b0 → is_Some (top !! 0%nat) →
     dim_fits (height b0) (stride_h_ l) (kernel_h_ l) (pad_h_ l) →
     dim_fits (width b0) (stride_w_ l) (kernel_w_ l) (pad_w_ l) →
     0 ≤ num b0 → 0 ≤ channels b0 →
     0 ≤ (height b0 - 1) * stride_h_ l + kernel_h_ l - 2 * pad_h_ l →
     0 ≤ (width b0 - 1) * stride_w_ l + kernel_w_ l - 2 * pad_w_ l →
     is_Some (Reshape zero l bottom top)).
Proof.
  unfold Reshape. split.
  - intros l' top' H.
    destruct (bottom !! 0%nat) as [b0|]; simpl in H; [|done].
    destruct (unpooled_dim (height b0) _ _ _) as [uh|] eqn:Eh;
      simpl in H; [|done].
    destruct (unpooled_dim (width b0) _ _ _) as [uw|] eqn:Ew;
      simpl in H; [|done].
    destruct top as [|t0 top]; simpl in H; [done|].
    destruct (Blob_Reshape zero t0 _ _ _ _) as [t0'|] eqn:Et;
      simpl in H; [|done].
    injection H as <- <-.
    apply Blob_Reshape_Some in Et as [_ ->].
    apply unpooled_dim_Some in Eh as [_ ->].
    apply unpooled_dim_Some in Ew as [_ ->].
    eexists b0, _. simpl. repeat split; reflexivity.
  - intros b0 -> [t0 ->] Hh Hw Hn Hc Huh Huw. simpl.
    assert (unpooled_dim (height b0) (stride_h_ l) (kernel_h_ l) (pad_h_ l)
            = Some ((height b0 - 1) * stride_h_ l + kernel_h_ l - 2 * pad_h_ l))
      as -> by by apply unpooled_dim_Some.
    assert (unpooled_dim (width b0) (stride_w_ l) (kernel_w_ l) (pad_w_ l)
            = Some ((width b0 - 1) * stride_w_ l + kernel_w_ l - 2 * pad_w_ l))
      as -> by by apply unpooled_dim_Some.
    simpl.
    edestruct (Blob_Reshape_Some zero t0) as [_ Hsome].
    rewrite Hsome; [simpl; eauto|]. split; [|reflexivity]. done.
Qed.

Lemma C4_Reshape_output_shape_witness :
  is_Some (Reshape 0 (mkLayer 2 2 2 2 0 0 0 0 0 0 0)
             [scenario_input] [mkBlob 0 0 0 0 [] []]) ∧
  ∃ l' t0',
    Reshape 0 (mkLayer 2 2 2 2 0 0 0 0 0 0 0)
      [scenario_input] [mkBlob 0 0 0 0 [] []] = Some (l', [t0']) ∧
    unpooled_height_ l' = 4 ∧ unpooled_width_ l' = 4 ∧
    (num t0', channels t0', height t0', width t0') = (1, 1, 4, 4).
Proof.
  destruct (C4_Reshape_output_shape 0 (mkLayer 2 2 2 2 0 0 0 0 0 0 0)
              [scenario_input] [mkBlob 0 0 0 0 [] []]) as [H Hdef].
  split.
  - apply (Hdef scenario_input); [reflexivity|simpl; eauto|..];
      unfold dim_fits, fits_int, INT_MIN, INT_MAX; simpl; lia.
  - eexists _, _. split; [reflexivity|].
    destruct (H _ _ eq_refl)
      as (b0 & t0' & Hb & Ht & Hh & Hw & _ & _ & _ & Hn & Hc & Hth & Htw & _).
    injection Hb as <-. injection Ht as <-. simpl in *.
    split; [exact Hh|]. split; [exact Hw|]. reflexivity.
Defined.

(** ** Loops *)

Section Loops.

Context {St : Type}.
Implicit Types (body : Z → St → option St) (s : St) (k : nat) (i : Z).

Lemma for_loop_app k1 k2 i body s :
  for_loop (k1 + k2) i body s =
  for_loop k1 i body s ≫= for_loop k2 (i + Z.of_nat k1) body.
Proof.
  revert i s. induction k1 as [|k1 IH]; intros i s.
  - simpl. by replace (i + Z.of_nat 0) with i by lia.
  - simpl. destruct (body i s) as [s'|]; [|done]. simpl.
    rewrite IH.
    by replace (i + 1 + Z.of_nat k1) with (i + Z.of_nat (S k1)) by lia.
Qed.

(** A loop of [k + 1] iterations is a loop of [k] followed by the last. *)
Lemma for_loop_snoc k i body s :
  for_loop (S k) i body s =
  for_loop k i body s ≫= body (i + Z.of_nat k).
Proof.
  rewrite <- Nat.add_1_r, for_loop_app.
  destruct (for_loop k i body s) as [s'|]; [|done]. simpl.
  by destruct (body (i + Z.of_nat k) s').
Qed.

(** A loop whose body adds [c] to its index is the loop started at [c]. *)
Lemma for_loop_shift k i c (g : Z → St → option St) s :
  for_loop k i (λ j st, g (c + j) st) s = for_loop k (c + i) g s.
Proof.
  revert i s. induction k as [|k IH]; intros i s; [done|].
  simpl. destruct (g (c + i) s) as [s'|]; [|done]. simpl.
  rewrite IH. by replace (c + (i + 1)) with (c + i + 1) by lia.
Qed.

(** A loop whose body ignores the index. *)
Lemma for_loop_const k i i' (f : St → option St) s :
  for_loop k i (λ _ st, f st) s = for_loop k i' (λ _ st, f st) s.
Proof.
  revert i i' s. induction k as [|k IH]; intros i i' s; [done|].
  simpl. destruct (f s) as [s'|]; [|done]. simpl. apply IH.
Qed.

(** Bodies that agree on every state give the same loop. *)
Lemma for_loop_const_ext k i (f g : St → option St) s :
  (∀ st, f st = g st) →
  for_loop k i (λ _ st, f st) s = for_loop k i (λ _ st, g st) s.
Proof.
  intros Hfg. revert i s. induction k as [|k IH]; intros i s; [done|].
  simpl. rewrite Hfg. destruct (g s) as [s'|]; [|done]. simpl. apply IH.
Qed.

(** Two nested loops whose body ignores both indices run it
    [k1 * k2] times. *)
Lemma for_loop_nested_const k1 k2 i (f : St → option St) s :
  for_loop k1 i (λ _ st, for_loop k2 0 (λ _ st, f st) st) s =
  for_loop (k1 * k2) 0 (λ _ st, f st) s.
Proof.
  revert i s. induction k1 as [|k1 IH]; intros i s; [done|].
  change (S k1 * k2)%nat with (k2 + k1 * k2)%nat.
  rewrite for_loop_app. simpl.
  destruct (for_loop k2 0 _ s) as [s'|]; [|done]. simpl.
  rewrite IH. apply for_loop_const.
Qed.

(** The loops over rows and columns visit the flat indices
    [ph * w + pw] in increasing order. *)
Lemma for_loop_row_major k ph (w : Z) (g : Z → St → option St) s :
  for_loop k ph (λ ph st,
    for_loop (Z.to_nat w) 0 (λ pw st, g (ph * w + pw) st) st) s =
  for_loop (k * Z.to_nat w) (ph * w) g s.
Proof.
  destruct (Z.le_gt_cases w 0) as [Hw|Hw].
  { replace (Z.to_nat w) with 0%nat by lia. rewrite Nat.mul_0_r. simpl.
    clear Hw. revert ph s. induction k as [|k IH]; intros ph s; [done|].
    simpl. apply IH. }
  revert ph s. induction k as [|k IH]; intros ph s; [done|].
  change (S k * Z.to_nat w)%nat
    with (Z.to_nat w + k * Z.to_nat w)%nat.
  rewrite for_loop_app. simpl.
  rewrite (for_loop_shift (Z.to_nat w) 0 (ph * w) g s).
  replace (ph * w + 0) with (ph * w) by lia.
  destruct (for_loop (Z.to_nat w) (ph * w) g s) as [s'|]; [|done]. simpl.
  rewrite IH. f_equal. lia.
Qed.

End Loops.

(** ** Memory *)

Section Memory.

Context {Dtype : Type}.
Implicit Types (b : list Dtype) (a : Z) (v : Dtype).

Lemma load_in_range b a :
  0 ≤ a < Z.of_nat (length b) → is_Some (load b a).
Proof.
  intros H. unfold load. destruct (Z.leb_spec 0 a); [|lia].
  apply lookup_lt_is_Some. lia.
Qed.

Lemma load_elem_of b a v : load b a = Some v → v ∈ b.
Proof.
  unfold load. destruct (0 <=? a); [|done].
  intros H. apply list_elem_of_lookup. eauto.
Qed.

Lemma store_in_range b a v :
  0 ≤ a < Z.of_nat (length b) →
  store b a v = Some (<[Z.to_nat a := v]> b).
Proof.
  intros H. unfold store.
  destruct (Z.leb_spec 0 a); [|lia].
  destruct (Z.ltb_spec a (Z.of_nat (length b))); [done|lia].
Qed.

Lemma load_insert_eq b a v :
  0 ≤ a < Z.of_nat (length b) → load (<[Z.to_nat a := v]> b) a = Some v.
Proof.
  intros H. unfold load. destruct (Z.leb_spec 0 a); [|lia].
  apply list_lookup_insert_eq. lia.
Qed.

Lemma load_insert_ne b a a' v :
  0 ≤ a → a ≠ a' → load (<[Z.to_nat a := v]> b) a' = load b a'.
Proof.
  intros H Hne. unfold load. destruct (Z.leb_spec 0 a'); [|done].
  apply list_lookup_insert_ne. lia.
Qed.

Lemma caffe_set_all (alpha : Dtype) b :
  caffe_set (Z.of_nat (length b)) alpha b = Some (replicate (length b) alpha).
Proof.
  unfold caffe_set. rewrite Nat2Z.id.
  destruct (Nat.leb_spec (length b) (length b)); [|lia].
  by rewrite drop_all, app_nil_r.
Qed.

Lemma load_replicate (alpha : Dtype) (n : nat) a :
  0 ≤ a < Z.of_nat n → load (replicate n alpha) a = Some alpha.
Proof.
  intros H. unfold load. destruct (Z.leb_spec 0 a); [|lia].
  apply lookup_replicate. split; [done|lia].
Qed.

End Memory.

(** ** Forward pass *)

Section Scatter.

Context {Dtype : Type}.
Variable zero : Dtype.
Variable to_int : Dtype → Z.
Implicit Types (st : @Cursor Dtype) (data mask : list Dtype).

(** The flat loop over one slice: [k] positions scattered into the window
    of [U] elements at [dst st].  Outside the window the buffer is as
    before; inside, position [t] holds the value of the last position
    whose mask entry is [t], and its former content if there is none. *)
Lemma scatter_flat data mask (U : Z) (k : nat) st :
  0 ≤ dst st → dst st + U ≤ Z.of_nat (length (buf st)) →
  (∀ i, 0 ≤ i < Z.of_nat k →
     ∃ m, load mask (msk st + i) = Some m ∧ 0 ≤ to_int m < U ∧
          is_Some (load data (src st + i))) →
  ∃ b, for_loop k 0 (scatter_at to_int data mask) st = Some (set_buf st b) ∧
       length b = length (buf st) ∧
       (∀ a, ¬ (dst st ≤ a < dst st + U) → load b a = load (buf st) a) ∧
       (∀ t, 0 ≤ t < U →
          (∀ i, 0 ≤ i < Z.of_nat k →
             mask_index to_int mask (msk st + i) = Some t →
             (∀ j, i < j < Z.of_nat k →
                mask_index to_int mask (msk st + j) ≠ Some t) →
             load b (dst st + t) = load data (src st + i)) ∧
          ((∀ i, 0 ≤ i < Z.of_nat k →
              mask_index to_int mask (msk st + i) ≠ Some t) →
           load b (dst st + t) = load (buf st) (dst st + t))).
Proof.
  intros Hd HU. induction k as [|k IH]; intros Hin.
  { exists (buf st). split; [by destruct st|]. split; [done|].
    split; [done|]. intros t Ht. split; [lia|done]. }
  destruct IH as (b & Hrun & Hlen & Hout & Hwin).
  { intros i Hi. apply Hin. lia. }
  destruct (Hin (Z.of_nat k)) as (m & Hm & Hmr & [v Hv]); [lia|].
  rewrite for_loop_snoc, Hrun. simpl. unfold scatter_at. simpl.
  rewrite Z.add_0_l, Hm. simpl. rewrite Hv. simpl.
  rewrite store_in_range by lia. simpl.
  eexists. split; [reflexivity|]. split; [by rewrite length_insert|].
  split.
  { intros a Ha. rewrite load_insert_ne by lia. by apply Hout. }
  intros t Ht. destruct (Hwin t Ht) as [Hhit Hmiss].
  destruct (decide (to_int m = t)) as [Heq|Hne].
  - subst t. rewrite load_insert_eq by lia. split.
    + intros i Hi Hit Hlast.
      destruct (decide (i = Z.of_nat k)) as [->|Hik]; [by rewrite Hv|].
      destruct (Hlast (Z.of_nat k)); [lia|].
      unfold mask_index. by rewrite Hm.
    + intros Hnone. destruct (Hnone (Z.of_nat k)); [lia|].
      unfold mask_index. by rewrite Hm.
  - rewrite load_insert_ne by lia. split.
    + intros i Hi Hit Hlast.
      destruct (decide (i = Z.of_nat k)) as [->|Hik].
      { unfold mask_index in Hit. rewrite Hm in Hit. simpl in Hit.
        congruence. }
      apply Hhit; [lia|done|]. intros j Hj. apply Hlast. lia.
    + intros Hnone. apply Hmiss. intros i Hi. apply Hnone. lia.
Qed.

(** [k] slices scattered one after the other from the start of the
    buffers, each [P] positions into a window of [U] elements.  [step] is
    the body of the loop over the slices. *)
Lemma scatter_slices data mask (P U K : Z) (step : Cursor → option Cursor)
    (b0 : list Dtype) (k : nat) :
  (∀ st, step st =
         for_loop (Z.to_nat P) 0 (scatter_at to_int data mask) st
         ≫= λ st, Some (advance st P U P)) →
  0 ≤ P → 0 ≤ U →
  Z.of_nat (length data) = K * P → Z.of_nat (length mask) = K * P →
  Z.of_nat (length b0) = K * U →
  (∀ m, m ∈ mask → 0 ≤ to_int m < U) →
  Z.of_nat k ≤ K →
  ∃ b, for_loop k 0 (λ _ st, step st) (mkCursor 0 0 0 b0) =
         Some (mkCursor (Z.of_nat k * P) (Z.of_nat k * U) (Z.of_nat k * P) b) ∧
       length b = length b0 ∧
       (∀ a, Z.of_nat k * U ≤ a → load b a = load b0 a) ∧
       (∀ s t, 0 ≤ s < Z.of_nat k → 0 ≤ t < U →
          (∀ i, 0 ≤ i < P →
             mask_index to_int mask (s * P + i) = Some t →
             (∀ j, i < j < P → mask_index to_int mask (s * P + j) ≠ Some t) →
             load b (s * U + t) = load data (s * P + i)) ∧
          ((∀ i, 0 ≤ i < P → mask_index to_int mask (s * P + i) ≠ Some t) →
           load b (s * U + t) = load b0 (s * U + t))).
Proof.
  intros Hstep HP HU Hdata Hmask Hb0 Hrange.
  induction k as [|k IH]; intros Hk.
  { exists b0. split; [done|]. split; [done|]. split; [done|]. lia. }
  destruct IH as (b & Hrun & Hlen & Hrest & Hdone); [lia|].
  destruct (scatter_flat data mask U (Z.to_nat P)
              (mkCursor (Z.of_nat k * P) (Z.of_nat k * U) (Z.of_nat k * P) b))
    as (b' & Hrun' & Hlen' & Hout & Hwin).
  { simpl. lia. }
  { simpl. rewrite Hlen. nia. }
  { simpl. intros i Hi.
    destruct (load_in_range mask (Z.of_nat k * P + i)) as [m Hm]; [nia|].
    exists m. split; [done|]. split; [eauto using load_elem_of|].
    apply load_in_range. nia. }
  simpl in Hrun', Hlen', Hout, Hwin.
  rewrite for_loop_snoc, Hrun. simpl. rewrite Hstep, Hrun'. simpl.
  exists b'. split.
  { unfold advance. simpl. f_equal; f_equal; lia. }
  split; [congruence|]. split.
  { intros a Ha. rewrite Hout by nia. apply Hrest. nia. }
  intros s t Hs Ht. destruct (decide (s = Z.of_nat k)) as [->|Hne].
  - destruct (Hwin t Ht) as [Hhit Hmiss]. split.
    + intros i Hi Hit Hlast. apply Hhit; [lia|done|].
      intros j Hj. apply Hlast. lia.
    + intros Hnone. rewrite Hmiss.
      * apply Hrest. lia.
      * intros i Hi. apply Hnone. lia.
  - rewrite Hout by nia. apply Hdone; lia.
Qed.

End Scatter.

(** C3: on blobs of matching shapes and a mask whose entries are in-range
    indices into the per-slice output area, [Forward_cpu] returns, and
    every output position [t] of every (batch, channel) slice holds the
    input value of the last flat position [i] of that slice (in row-major
    order) whose mask entry is [t], and zero when no mask entry of that
    slice is [t]. *)
Theorem C3_Forward_cpu_last_write_wins {Dtype : Type} (zero : Dtype)
    (to_int : Dtype → Z) (l : Layer) (b0 b1 t0 : Blob Dtype)
    (bottom top : list (Blob Dtype)) :
  forward_ready l b0 b1 t0 →
  (∀ m, m ∈ cpu_data b1 → 0 ≤ to_int m < height t0 * width t0) →
  ∃ out,
    Forward_cpu zero to_int l (b0 :: b1 :: bottom) (t0 :: top) =
      Some (set_data t0 out :: top) ∧
    Z.of_nat (length out) = count t0 ∧
    ∀ n c t,
      0 ≤ n < num b0 → 0 ≤ c < channels b0 →
      0 ≤ t < height t0 * width t0 →
      (∀ i, 0 ≤ i < height b0 * width b0 →
         mask_index to_int (cpu_data b1) (offset b1 n c 0 0 + i) = Some t →
         (∀ j, i < j < height b0 * width b0 →
            mask_index to_int (cpu_data b1) (offset b1 n c 0 0 + j) ≠ Some t) →
         is_Some (load (cpu_data b0) (offset b0 n c 0 0 + i)) ∧
         load out (offset t0 n c 0 0 + t) =
           load (cpu_data b0) (offset b0 n c 0 0 + i)) ∧
      ((∀ i, 0 ≤ i < height b0 * width b0 →
          mask_index to_int (cpu_data b1) (offset b1 n c 0 0 + i) ≠ Some t) →
       load out (offset t0 n c 0 0 + t) = Some zero).
Proof.
  intros (Hb0 & Hb1 & Ht0 & Hshape & Hn & Hc & Hlc & Hlh & Hlw) Hmask.
  destruct Hb0 as (HN & HC & HH & HW & Hlen0).
  destruct Hb1 as (_ & _ & _ & _ & Hlen1).
  destruct Ht0 as (_ & _ & HUH & HUW & Hlent).
  injection Hshape as Hn1 Hc1 Hh1 Hw1.
  unfold count in *. rewrite Hn1, Hc1, Hh1, Hw1 in Hlen1.
  rewrite Hn, Hc in Hlent.
  unfold Forward_cpu, for_int. simpl.
  unfold count. rewrite Hn, Hc, <- Hlent, caffe_set_all. simpl.
  rewrite Hlc, Hlh, Hlw.
  rewrite for_loop_nested_const.
  edestruct (scatter_slices to_int (cpu_data b0) (cpu_data b1)
               (height b0 * width b0) (height t0 * width t0)
               (num b0 * channels b0))
    as (out & Hrun & Hlen & _ & Hslices);
    [| | | | | | exact Hmask | | rewrite Hrun].
  - intros st. simpl. rewrite for_loop_row_major.
    rewrite Z2Nat.inj_mul by done.
    replace (offset b0 0 1 0 0) with (height b0 * width b0)
      by (unfold offset; lia).
    replace (offset b1 0 1 0 0) with (height b0 * width b0)
      by (unfold offset; rewrite Hh1, Hw1; lia).
    replace (offset t0 0 1 0 0) with (height t0 * width t0)
      by (unfold offset; lia).
    reflexivity.
  - lia.
  - lia.
  - lia.
  - lia.
  - rewrite length_replicate. lia.
  - rewrite Nat2Z.inj_mul. lia.
  - simpl. exists out. split; [done|].
    rewrite length_replicate in Hlen. split; [by rewrite Hlen|].
    intros n c t Hnr Hcr Ht.
    assert (0 ≤ n * channels b0 + c <
            Z.of_nat (Z.to_nat (num b0) * Z.to_nat (channels b0))) as Hs
      by (rewrite Nat2Z.inj_mul; nia).
    destruct (Hslices (n * channels b0 + c) t Hs Ht) as [Hhit Hmiss].
    replace (offset b0 n c 0 0)
      with ((n * channels b0 + c) * (height b0 * width b0))
      by (unfold offset; lia).
    replace (offset b1 n c 0 0)
      with ((n * channels b0 + c) * (height b0 * width b0))
      by (unfold offset; rewrite Hc1, Hh1, Hw1; lia).
    replace (offset t0 n c 0 0)
      with ((n * channels b0 + c) * (height t0 * width t0))
      by (unfold offset; rewrite Hc; lia).
    rewrite Nat2Z.inj_mul in Hs. split.
    + intros i Hi Hit Hlast. split; [apply load_in_range; nia|].
      by apply Hhit.
    + intros Hnone. rewrite Hmiss by done.
      apply load_replicate. nia.
Qed.

Lemma C3_Forward_cpu_last_write_wins_witness :
  ∃ out,
    Forward_cpu 0 id scenario_layer [scenario_input; scenario_mask]
      [scenario_output] = Some [set_data scenario_output out] ∧
    load out 5 = Some 9 ∧ load out 1 = Some 0.
Proof.
  destruct (C3_Forward_cpu_last_write_wins 0 id scenario_layer
              scenario_input scenario_mask scenario_output [] [])
    as (out & Hrun & _ & Hout).
  - unfold forward_ready, data_sized, count. simpl.
    repeat split; (lia || reflexivity).
  - intros m Hm. simpl in Hm.
    repeat (apply elem_of_cons in Hm as [->|Hm]; [simpl; lia|]).
    by apply elem_of_nil in Hm.
  - exists out. split; [exact Hrun|].
    destruct (Hout 0 0 5) as [Hhit _]; [simpl; lia..|].
    destruct (Hout 0 0 1) as [_ Hmiss]; [simpl; lia..|].
    split.
    + destruct (Hhit 2) as [_ E]; [simpl; lia|reflexivity| |exact E].
      intros j Hj. simpl in Hj. assert (j = 3) as -> by lia. discriminate.
    + apply Hmiss. intros i Hi. simpl in Hi.
      assert (i = 0 ∨ i = 1 ∨ i = 2 ∨ i = 3) as Hcases by lia.
      destruct Hcases as [E|[E|[E|E]]]; subst i; discriminate.
Defined.

(** ** Backward loops *)

Section Gather.

Context {Dtype : Type}.
Variable zero : Dtype.
Variable to_int : Dtype → Z.
Implicit Types (st : @Cursor Dtype) (top_diff mask : list Dtype).

(** The flat loop over one slice: [k] positions gathered into the window
    at [dst st]. *)
Lemma gather_flat top_diff mask (k : nat) st :
  0 ≤ dst st → dst st + Z.of_nat k ≤ Z.of_nat (length (buf st)) →
  (∀ i, 0 ≤ i < Z.of_nat k →
     ∃ m, load mask (msk st + i) = Some m ∧
          is_Some (load top_diff (src st + to_int m))) →
  ∃ b, for_loop k 0 (gather_at to_int top_diff mask) st = Some (set_buf st b) ∧
       length b = length (buf st) ∧
       (∀ a, ¬ (dst st ≤ a < dst st + Z.of_nat k) →
          load b a = load (buf st) a) ∧
       (∀ i, 0 ≤ i < Z.of_nat k →
          ∃ m, load mask (msk st + i) = Some m ∧
               load b (dst st + i) = load top_diff (src st + to_int m)).
Proof.
  intros Hd. induction k as [|k IH]; intros Hlen Hin.
  { exists (buf st). split; [by destruct st|]. split; [done|].
    split; [done|]. lia. }
  destruct IH as (b & Hrun & Hlb & Hout & Hwin); [lia| |].
  { intros i Hi. apply Hin. lia. }
  destruct (Hin (Z.of_nat k)) as (m & Hm & [v Hv]); [lia|].
  rewrite for_loop_snoc, Hrun. simpl. unfold gather_at. simpl.
  rewrite Z.add_0_l, Hm. simpl. rewrite Hv. simpl.
  rewrite store_in_range by lia. simpl.
  eexists. split; [reflexivity|]. split; [by rewrite length_insert|].
  split.
  { intros a Ha. rewrite load_insert_ne by lia. apply Hout. lia. }
  intros i Hi. destruct (decide (i = Z.of_nat k)) as [->|Hne].
  - exists m. split; [done|]. rewrite load_insert_eq by lia. done.
  - destruct (Hwin i) as (m' & Hm' & Hb); [lia|].
    exists m'. split; [done|]. by rewrite load_insert_ne by lia.
Qed.

(** The loop over [c] of [Backward_cpu] runs the flat loop [c] times on
    the same slice: the pointers do not move in between. *)
Lemma gather_repeat top_diff mask (k c : nat) st :
  0 ≤ dst st → dst st + Z.of_nat k ≤ Z.of_nat (length (buf st)) →
  (∀ i, 0 ≤ i < Z.of_nat k →
     ∃ m, load mask (msk st + i) = Some m ∧
          is_Some (load top_diff (src st + to_int m))) →
  ∃ b, for_loop c 0
         (λ _ st, for_loop k 0 (gather_at to_int top_diff mask) st) st =
         Some (set_buf st b) ∧
       length b = length (buf st) ∧
       (∀ a, ¬ (dst st ≤ a < dst st + Z.of_nat k) →
          load b a = load (buf st) a) ∧
       ((0 < c)%nat → ∀ i, 0 ≤ i < Z.of_nat k →
          ∃ m, load mask (msk st + i) = Some m ∧
               load b (dst st + i) = load top_diff (src st + to_int m)).
Proof.
  intros Hd Hlen Hin. induction c as [|c IH].
  { exists (buf st). split; [by destruct st|]. split; [done|].
    split; [done|]. lia. }
  destruct IH as (b & Hrun & Hlb & Hout & _).
  destruct (gather_flat top_diff mask k (set_buf st b))
    as (b' & Hrun' & Hlb' & Hout' & Hwin');
    [simpl; done|simpl; lia|simpl; done|].
  rewrite for_loop_snoc, Hrun. simpl. rewrite Hrun'.
  exists b'. simpl in *. split; [done|]. split; [congruence|].
  split; [|done]. intros a Ha. rewrite Hout' by done. by apply Hout.
Qed.

(** [k] iterations of the loop over [n] of [Backward_cpu]: each gathers one
    slice of [P] positions [c] times and then moves the pointers by one
    slice.  [step] is the body of the loop over [n]. *)
Lemma gather_batches top_diff mask (P U K : Z) (c : nat)
    (step : Cursor → option Cursor) (b0 : list Dtype) (k : nat) :
  (∀ st, step st =
         for_loop c 0
           (λ _ st, for_loop (Z.to_nat P) 0
                      (gather_at to_int top_diff mask) st) st
         ≫= λ st, Some (advance st U P P)) →
  0 ≤ P → 0 ≤ U → (0 < c)%nat →
  Z.of_nat (length top_diff) = K * U → Z.of_nat (length mask) = K * P →
  Z.of_nat (length b0) = K * P →
  (∀ m, m ∈ mask → 0 ≤ to_int m < U) →
  Z.of_nat k ≤ K →
  ∃ b, for_loop k 0 (λ _ st, step st) (mkCursor 0 0 0 b0) =
         Some (mkCursor (Z.of_nat k * U) (Z.of_nat k * P) (Z.of_nat k * P) b) ∧
       length b = length b0 ∧
       (∀ a, Z.of_nat k * P ≤ a → load b a = load b0 a) ∧
       (∀ s i, 0 ≤ s < Z.of_nat k → 0 ≤ i < P →
          ∃ m, load mask (s * P + i) = Some m ∧
               load b (s * P + i) = load top_diff (s * U + to_int m)).
Proof.
  intros Hstep HP HU Hc Htop Hmask Hb0 Hrange.
  induction k as [|k IH]; intros Hk.
  { exists b0. split; [done|]. split; [done|]. split; [done|]. lia. }
  destruct IH as (b & Hrun & Hlen & Hrest & Hdone); [lia|].
  destruct (gather_repeat top_diff mask (Z.to_nat P) c
              (mkCursor (Z.of_nat k * U) (Z.of_nat k * P) (Z.of_nat k * P) b))
    as (b' & Hrun' & Hlen' & Hout & Hwin).
  { simpl. lia. }
  { simpl. rewrite Hlen. nia. }
  { simpl. intros i Hi.
    destruct (load_in_range mask (Z.of_nat k * P + i)) as [m Hm]; [nia|].
    exists m. split; [done|]. apply load_in_range.
    pose proof (Hrange m (load_elem_of _ _ _ Hm)). nia. }
  simpl in Hrun', Hlen', Hout, Hwin.
  rewrite for_loop_snoc, Hrun. simpl. rewrite Hstep, Hrun'. simpl.
  exists b'. split.
  { unfold advance. simpl. f_equal; f_equal; lia. }
  split; [congruence|]. split.
  { intros a Ha. rewrite Hout by nia. apply Hrest. nia. }
  intros s i Hs Hi. destruct (decide (s = Z.of_nat k)) as [->|Hne].
  - apply Hwin; [done|lia].
  - destruct (Hdone s i) as (m & Hm & Hb); [lia|done|].
    exists m. split; [done|]. rewrite Hout by nia. done.
Qed.

(** What [Backward_cpu] computes on an input of at least one channel: it
    returns; with [s] ranging over the first [num] slices of the buffers in
    memory order, position [i] of slice [s] of the input gradient is the
    upstream gradient at the mask entry within slice [s]; every element
    past those [num] slices is zero.  For one channel these are all the
    slices; for more, slices [num] to [num * channels - 1] are never
    gathered. *)
Lemma Backward_cpu_first_slices (l : Layer) (t0 b0 b1 : Blob Dtype)
    (top bottom : list (Blob Dtype)) (propagate_down : list bool) :
  backward_ready l t0 b0 b1 →
  0 < channels b0 →
  (∀ m, m ∈ cpu_data b1 → 0 ≤ to_int m < height t0 * width t0) →
  ∃ g,
    Backward_cpu zero to_int l (t0 :: top) (true :: propagate_down)
      (b0 :: b1 :: bottom) = Some (set_diff b0 g :: b1 :: bottom) ∧
    Z.of_nat (length g) = count b0 ∧
    (∀ s i, 0 ≤ s < num b0 → 0 ≤ i < height b0 * width b0 →
       ∃ m, load (cpu_data b1) (s * (height b0 * width b0) + i) = Some m ∧
            load g (s * (height b0 * width b0) + i) =
            load (cpu_diff t0) (s * (height t0 * width t0) + to_int m)) ∧
    (∀ a, num b0 * (height b0 * width b0) ≤ a < count b0 →
       load g a = Some zero).
Proof.
  intros (Ht0 & Hb0 & Hb1 & Hshape & Hn & Hc & Hlc & Hlh & Hlw) Hpos Hmask.
  destruct Hb0 as (HN & HC & HH & HW & Hlen0).
  destruct Hb1 as (_ & _ & _ & _ & Hlen1).
  destruct Ht0 as (_ & _ & HUH & HUW & Hlent).
  injection Hshape as Hn1 Hc1 Hh1 Hw1.
  unfold count in *. rewrite Hn1, Hc1, Hh1, Hw1 in Hlen1.
  rewrite Hn, Hc in Hlent.
  unfold Backward_cpu, for_int. simpl.
  unfold count. rewrite <- Hlen0, caffe_set_all. simpl.
  rewrite Hlc, Hlh, Hlw, Hn.
  edestruct (gather_batches (cpu_diff t0) (cpu_data b1)
               (height b0 * width b0) (height t0 * width t0)
               (num b0 * channels b0) (Z.to_nat (channels b0)))
    as (g & Hrun & Hlen & Hrest & Hslices);
    [| | | | | | | exact Hmask | | rewrite Hrun].
  - intros st. simpl.
    replace (offset b0 0 1 0 0) with (height b0 * width b0)
      by (unfold offset; lia).
    replace (offset b1 0 1 0 0) with (height b0 * width b0)
      by (unfold offset; rewrite Hh1, Hw1; lia).
    replace (offset t0 0 1 0 0) with (height t0 * width t0)
      by (unfold offset; lia).
    rewrite Z2Nat.inj_mul by done.
    f_equal. apply for_loop_const_ext. intros st'.
    apply (for_loop_row_major (Z.to_nat (height b0)) 0 (width b0)).
  - lia.
  - lia.
  - lia.
  - lia.
  - lia.
  - rewrite length_replicate. lia.
  - assert (Z.of_nat (Z.to_nat (num b0)) = num b0) as -> by lia. nia.
  - simpl. exists g. split; [done|].
    rewrite length_replicate in Hlen. split; [by rewrite Hlen|].
    rewrite Z2Nat.id in Hslices, Hrest by done. split.
    + intros s i Hs Hi. by apply Hslices.
    + intros a Ha. rewrite Hrest by lia. apply load_replicate. lia.
Qed.

End Gather.

(** ** Backward pass *)

(** C9: with gradient propagation to the input disabled, [Backward_cpu]
    returns the input blobs as they are: the input gradient buffer is
    neither zero-filled nor written. *)
Theorem C9_Backward_cpu_propagation_disabled {Dtype : Type} (zero : Dtype)
    (to_int : Dtype → Z) (l : Layer) (top : list (Blob Dtype))
    (propagate_down : list bool) (bottom : list (Blob Dtype)) :
  propagate_down !! 0%nat = Some false →
  Backward_cpu zero to_int l top propagate_down bottom = Some bottom.
Proof. intros H. unfold Backward_cpu. by rewrite H. Qed.

Lemma C9_Backward_cpu_propagation_disabled_witness :
  Backward_cpu 0 id two_channel_layer [mkBlob 1 2 1 1 [3; 4] [5; 7]]
    [false] [two_channel_input; two_channel_mask]
  = Some [two_channel_input; two_channel_mask].
Proof.
  apply (C9_Backward_cpu_propagation_disabled 0 id two_channel_layer
           [mkBlob 1 2 1 1 [3; 4] [5; 7]] [false]
           [two_channel_input; two_channel_mask]).
  reflexivity.
Defined.

(** C1 fails on the code: on an input of two channels, with upstream
    gradient [5; 7] and every mask entry in range, [Backward_cpu] routes
    the gradient of the first slice only; the second slice of the input
    gradient stays at the zero of the initial fill instead of receiving
    7. *)
Theorem C1_Backward_cpu_second_channel_unrouted :
  Backward_cpu 0 id two_channel_layer [mkBlob 1 2 1 1 [3; 4] [5; 7]]
    [true] [two_channel_input; two_channel_mask]
  = Some [set_diff two_channel_input [5; 0]; two_channel_mask] ∧
  load (cpu_diff (mkBlob 1 2 1 1 [3; 4] [5; 7]))
       (1 * 1 + id 0) = Some 7.
Proof. split; reflexivity. Qed.

(** C2 fails on the code: the forward pass scatters the input [3; 4] to
    the output [3; 4]; the backward pass on that output as upstream
    gradient leaves [3; 0] in the input gradient, not the input. *)
Theorem C2_roundtrip_second_channel_lost :
  ∃ out_blob,
    Forward_cpu 0 id two_channel_layer
      [two_channel_input; two_channel_mask] [mkBlob 1 2 1 1 [8; 8] [8; 8]]
    = Some [out_blob] ∧
    cpu_data out_blob = [3; 4] ∧
    Backward_cpu 0 id two_channel_layer
      [set_diff out_blob (cpu_data out_blob)] [true]
      [two_channel_input; two_channel_mask]
    = Some [set_diff two_channel_input [3; 0]; two_channel_mask] ∧
    cpu_data two_channel_input = [3; 4].
Proof. eexists. repeat split; reflexivity. Qed.

(** ** Declared blob counts *)

(** C6 fails on the code: both classes of the cuDNN header declare exactly
    1 input blob, with 2 and 1 output blobs; and on a vector of exactly one
    input blob the forward pass that [CuDNNUnpoolingLayer] inherits is
    undefined, since it reads the mask from [bottom[1]]. *)
Theorem C6_cudnn_classes_declare_one_bottom {Dtype : Type} (zero : Dtype)
    (to_int : Dtype → Z) (l : Layer) (b : Blob Dtype)
    (top : list (Blob Dtype)) :
  ExactNumBottomBlobs CuDNNUnpoolingLayer = 1 ∧
  ExactNumBottomBlobs CudnnNdUnpoolingLayer = 1 ∧
  ExactNumTopBlobs CuDNNUnpoolingLayer = 2 ∧
  ExactNumTopBlobs CudnnNdUnpoolingLayer = 1 ∧
  Forward_cpu zero to_int l [b] top = None.
Proof.
  repeat split. unfold Forward_cpu. simpl.
  destruct top as [|t0 top]; [done|]. simpl.
  by destruct (caffe_set _ _ _).
Qed.

(** ** More on LayerSetUp *)

Section SetUpMore.

Variable dflt : ProtoDefaults.

Lemma kernel_spec_xorb (p : UnpoolingParameter) :
  xorb (negb (has (kernel_size p)))
       (negb (has (kernel_h p) && has (kernel_w p))) = true ↔ kernel_spec p.
Proof.
  unfold kernel_spec.
  destruct (kernel_size p), (kernel_h p), (kernel_w p); simpl;
    rewrite ?is_Some_alt; split; intros H; try done; try tauto;
    try (right; by eauto); try (left; split; [by eauto|]; tauto).
  destruct H as [[_ H]|[[=] _]]. by destruct H.
Qed.

(** The verdict of [LayerSetUp]: a configuration is set up exactly when the
    kernel rule and the either/or rules of pad and stride hold, the
    resolved kernel is positive and a nonzero resolved pad is below the
    kernel; the layer is then the old one with the resolved kernel, pad and
    stride. *)
Theorem LayerSetUp_accept_iff (p : UnpoolingParameter) (l0 l : Layer) :
  LayerSetUp dflt p l0 = inr l ↔
  kernel_spec p ∧
  either_or (pad p) (pad_h p) (pad_w p) ∧
  either_or (stride p) (stride_h p) (stride_w p) ∧
  0 < (resolve_kernel dflt p).1 ∧ 0 < (resolve_kernel dflt p).2 ∧
  ((resolve_pad dflt p).1 ≠ 0 ∨ (resolve_pad dflt p).2 ≠ 0 →
   (resolve_pad dflt p).1 < (resolve_kernel dflt p).1 ∧
   (resolve_pad dflt p).2 < (resolve_kernel dflt p).2) ∧
  l = mkLayer (resolve_kernel dflt p).1 (resolve_kernel dflt p).2
              (resolve_stride dflt p).1 (resolve_stride dflt p).2
              (resolve_pad dflt p).1 (resolve_pad dflt p).2
              (channels_ l0) (height_ l0) (width_ l0)
              (unpooled_height_ l0) (unpooled_width_ l0).
Proof.
  split.
  - intros H.
    destruct (LayerSetUp_spec_checks _ _ _ _ H) as (Hk & Hp & Hs).
    pose proof (LayerSetUp_value_checks _ _ _ _ H) as Hv.
    pose proof (LayerSetUp_inr _ _ _ _ H) as Hl.
    rewrite Hl in Hv. simpl in Hv. apply kernel_spec_xorb in Hk.
    destruct Hv as (? & ? & ?). by rewrite Hl.
  - intros (Hk & Hp & Hs & Hh & Hw & Hpad & ->).
    apply kernel_spec_xorb in Hk.
    destruct (LayerSetUp_accepts dflt p l0 Hk Hp Hs Hh Hw Hpad) as [l Hl].
    by rewrite Hl, (LayerSetUp_inr _ _ _ _ Hl).
Qed.

End SetUpMore.

Lemma LayerSetUp_accept_iff_witness :
  LayerSetUp caffe_defaults
    (mkParam None (Some 2) (Some 3) None (Some 1) (Some 0) (Some 2) None None)
    fresh_layer = inr (mkLayer 2 3 2 2 1 0 0 0 0 0 0).
Proof.
  apply LayerSetUp_accept_iff. unfold kernel_spec, either_or. simpl.
  split; [right; eauto|]. split; [left; eauto|]. split; [right; eauto|].
  split; [reflexivity|]. split; [reflexivity|].
  split; [intros _; split; reflexivity|reflexivity].
Defined.

Section SetUpRules.

Variable dflt : ProtoDefaults.

(** [LayerSetUp] never fails the check of line 22: whenever the check of
    line 19 passes, [kernel_size] or the complete per-axis pair is
    present. *)
Theorem LayerSetUp_never_FilterBothRequired (p : UnpoolingParameter)
    (l0 : Layer) :
  LayerSetUp dflt p l0 ≠ inl FilterBothRequired.
Proof.
  unfold LayerSetUp, CHECK.
  destruct (has (kernel_size p)), (has (kernel_h p)), (has (kernel_w p));
    simpl; try discriminate;
    repeat match goal with
           | |- (if ?c then _ else _) ≠ _ => destruct c; try discriminate
           end.
Qed.

(** A configuration that passes the kernel rule and mixes the scalar [pad]
    with a per-axis pad, or gives only one of [pad_h] and [pad_w], is
    rejected by the check of line 25. *)
Theorem LayerSetUp_pad_mix_rejected (p : UnpoolingParameter) (l0 : Layer) :
  kernel_spec p →
  mixed (pad p) (pad_h p) (pad_w p) →
  LayerSetUp dflt p l0 = inl PadSpec.
Proof.
  intros Hk Hmix. apply kernel_spec_xorb in Hk.
  unfold LayerSetUp, CHECK. rewrite Hk.
  assert (has (kernel_size p) || has (kernel_h p) && has (kernel_w p) = true)
    as ->.
  { destruct (has (kernel_size p)), (has (kernel_h p)), (has (kernel_w p));
      done. }
  destruct Hmix as [[[? ->] [[? ->]|[? ->]]]|[[[? ->] ->]|[-> [? ->]]]];
    simpl; try done; by destruct (pad_h p), (pad p).
Qed.

(** A configuration that passes the kernel and pad rules and mixes the
    scalar [stride] with a per-axis stride, or gives only one of
    [stride_h] and [stride_w], is rejected by the check of line 29. *)
Theorem LayerSetUp_stride_mix_rejected (p : UnpoolingParameter)
    (l0 : Layer) :
  kernel_spec p →
  either_or (pad p) (pad_h p) (pad_w p) →
  mixed (stride p) (stride_h p) (stride_w p) →
  LayerSetUp dflt p l0 = inl StrideSpec.
Proof.
  intros Hk Hp Hmix. apply kernel_spec_xorb in Hk.
  unfold LayerSetUp, CHECK. rewrite Hk.
  assert (has (kernel_size p) || has (kernel_h p) && has (kernel_w p) = true)
    as ->.
  { destruct (has (kernel_size p)), (has (kernel_h p)), (has (kernel_w p));
      done. }
  assert (negb (has (pad p)) && has (pad_h p) && has (pad_w p)
          || negb (has (pad_h p)) && negb (has (pad_w p)) = true) as ->.
  { destruct Hp as [(-> & [? ->] & [? ->])|[-> ->]]; by destruct (pad p). }
  destruct Hmix as [[[? ->] [[? ->]|[? ->]]]|[[[? ->] ->]|[-> [? ->]]]];
    simpl; try done; by destruct (stride_h p), (stride p).
Qed.


(** The pad check of lines 57-59 compares the [int] members: a scalar pad
    above [INT_MAX] is held as a negative value, which is below every
    kernel, so a configuration of a [kernel_size] from 1 to [INT_MAX] with
    such a pad is accepted, with both pads [pad - 2 ^ 32]. *)
Theorem LayerSetUp_pad_above_INT_MAX_accepted (k pd : Z) (l0 : Layer) :
  0 < k ≤ INT_MAX → INT_MAX < pd ≤ UINT32_MAX →
  ∃ l, LayerSetUp dflt
         (mkParam (Some k) None None (Some pd) None None None None None) l0
         = inr l ∧
       pad_h_ l = pd - 2 ^ 32 ∧ pad_w_ l = pd - 2 ^ 32 ∧ pad_h_ l < 0.
Proof.
  intros Hk Hpd.
  assert (resolve_kernel dflt
            (mkParam (Some k) None None (Some pd) None None None None None)
          = (k, k)) as Hrk.
  { unfold resolve_kernel. simpl. by rewrite int_of_uint32_small by lia. }
  assert (resolve_pad dflt
            (mkParam (Some k) None None (Some pd) None None None None None)
          = (pd - 2 ^ 32, pd - 2 ^ 32)) as Hrp.
  { unfold resolve_pad. simpl. by rewrite int_of_uint32_large by lia. }
  destruct (LayerSetUp_accepts dflt
              (mkParam (Some k) None None (Some pd) None None None None None)
              l0) as [l Hl]; rewrite ?Hrk, ?Hrp; simpl; try done.
  - right. done.
  - right. done.
  - lia.
  - lia.
  - unfold INT_MAX, UINT32_MAX in *. lia.
  - exists l. split; [done|].
    rewrite (LayerSetUp_inr _ _ _ _ Hl), Hrp. simpl.
    unfold INT_MAX, UINT32_MAX in *. lia.
Qed.

(** A [kernel_size] above [INT_MAX] is held as a negative value and fails
    the check of line 40, in a configuration that passes the checks before
    it. *)
Theorem LayerSetUp_kernel_above_INT_MAX_rejected (p : UnpoolingParameter)
    (k : Z) (l0 : Layer) :
  kernel_size p = Some k → INT_MAX < k ≤ UINT32_MAX →
  kernel_spec p →
  either_or (pad p) (pad_h p) (pad_w p) →
  either_or (stride p) (stride_h p) (stride_w p) →
  LayerSetUp dflt p l0 = inl FilterHeightZero.
Proof.
  intros Hks Hk Hspec Hp Hs. apply kernel_spec_xorb in Hspec.
  unfold LayerSetUp, CHECK. rewrite Hspec.
  assert (has (kernel_size p) || has (kernel_h p) && has (kernel_w p) = true)
    as -> by by rewrite Hks.
  assert (negb (has (pad p)) && has (pad_h p) && has (pad_w p)
          || negb (has (pad_h p)) && negb (has (pad_w p)) = true) as ->.
  { destruct Hp as [(-> & [? ->] & [? ->])|[-> ->]]; by destruct (pad p). }
  assert (negb (has (stride p)) && has (stride_h p) && has (stride_w p)
          || negb (has (stride_h p)) && negb (has (stride_w p)) = true) as ->.
  { destruct Hs as [(-> & [? ->] & [? ->])|[-> ->]]; by destruct (stride p). }
  simpl. unfold resolve_kernel. rewrite Hks. simpl.
  rewrite int_of_uint32_large by done.
  destruct (Z.ltb_spec 0 (k - 2 ^ 32)); [|done].
  unfold INT_MAX, UINT32_MAX in *. lia.
Qed.

(** The verdict of [LayerSetUp] does not depend on the state of the layer
    it is run on: a rejection is the same on every layer, and an accepted
    configuration gives on another layer the same kernel, stride and pad,
    with that layer's shape fields kept. *)
Theorem LayerSetUp_prior_state_irrelevant (p : UnpoolingParameter)
    (l0 l0' : Layer) :
  (∀ e, LayerSetUp dflt p l0 = inl e → LayerSetUp dflt p l0' = inl e) ∧
  (∀ l, LayerSetUp dflt p l0 = inr l →
     with_shape_of l l0 = l ∧
     LayerSetUp dflt p l0' = inr (with_shape_of l l0')).
Proof.
  split.
  - unfold LayerSetUp, CHECK. simpl. intros e.
    repeat match goal with
           | |- (if ?c then _ else _) = _ → _ => destruct c; try done
           end.
  - intros l H. pose proof (LayerSetUp_inr _ _ _ _ H) as Hl.
    split; [by rewrite Hl|].
    destruct (LayerSetUp_total dflt p l0') as [[l' H']|[e H']].
    + rewrite H', (LayerSetUp_inr _ _ _ _ H'), Hl. done.
    + revert H H'. unfold LayerSetUp, CHECK. simpl.
      repeat match goal with
             | |- (if ?c then _ else _) = _ → _ => destruct c; try done
             end.
Qed.

End SetUpRules.

Lemma LayerSetUp_pad_mix_rejected_witness :
  LayerSetUp caffe_defaults
    (mkParam (Some 3) None None (Some 1) (Some 1) (Some 1) None None None)
    fresh_layer = inl PadSpec ∧
  LayerSetUp caffe_defaults
    (mkParam (Some 3) None None None None (Some 1) None None None)
    fresh_layer = inl PadSpec.
Proof.
  split; apply LayerSetUp_pad_mix_rejected; unfold kernel_spec, mixed; simpl.
  - left. split; [eauto|]. intros [[x Hx] _]. discriminate Hx.
  - left. eauto.
  - left. split; [eauto|]. intros [[x Hx] _]. discriminate Hx.
  - right. right. eauto.
Defined.

Lemma LayerSetUp_stride_mix_rejected_witness :
  LayerSetUp caffe_defaults
    (mkParam (Some 3) None None None None None (Some 2) (Some 2) None)
    fresh_layer = inl StrideSpec.
Proof.
  apply LayerSetUp_stride_mix_rejected;
    unfold kernel_spec, either_or, mixed; simpl.
  - left. split; [eauto|]. intros [[x Hx] _]. discriminate Hx.
  - right. eauto.
  - left. eauto.
Defined.


Lemma LayerSetUp_pad_above_INT_MAX_accepted_witness :
  ∃ l, LayerSetUp caffe_defaults
         (mkParam (Some 2) None None (Some 4294967295) None None
                  None None None) fresh_layer = inr l ∧
       pad_h_ l = 4294967295 - 2 ^ 32 ∧ pad_w_ l = 4294967295 - 2 ^ 32 ∧
       pad_h_ l < 0.
Proof.
  apply (LayerSetUp_pad_above_INT_MAX_accepted caffe_defaults 2 4294967295
           fresh_layer); unfold INT_MAX, UINT32_MAX; lia.
Defined.

Lemma LayerSetUp_kernel_above_INT_MAX_rejected_witness :
  LayerSetUp caffe_defaults
    (mkParam (Some 2147483648) None None None None None None None None)
    fresh_layer = inl FilterHeightZero.
Proof.
  apply (LayerSetUp_kernel_above_INT_MAX_rejected caffe_defaults
           (mkParam (Some 2147483648) None None None None None None None None)
           2147483648 fresh_layer).
  - reflexivity.
  - unfold INT_MAX, UINT32_MAX. lia.
  - left. simpl. split; [eauto|]. intros [[x Hx] _]. discriminate Hx.
  - right. simpl. eauto.
  - right. simpl. eauto.
Defined.

Lemma LayerSetUp_prior_state_irrelevant_witness :
  LayerSetUp caffe_defaults
    (mkParam (Some 2) None None None None None None None None)
    scenario_layer = inr (mkLayer 2 2 1 1 0 0 1 2 2 4 4).
Proof.
  destruct (LayerSetUp_prior_state_irrelevant caffe_defaults
              (mkParam (Some 2) None None None None None None None None)
              fresh_layer scenario_layer) as [_ H].
  destruct (H _ eq_refl) as [_ H']. exact H'.
Defined.

(** ** More on Reshape *)

Section ReshapeMore.

Context {Dtype : Type}.
Variable zero : Dtype.

(** The result of [Reshape] on the first blob of each vector. *)
Lemma Reshape_Some (l l' : Layer) (bottom top top' : list (Blob Dtype)) :
  Reshape zero l bottom top = Some (l', top') →
  ∃ b0 t0 t0',
    bottom !! 0%nat = Some b0 ∧ top !! 0%nat = Some t0 ∧
    dim_fits (height b0) (stride_h_ l) (kernel_h_ l) (pad_h_ l) ∧
    dim_fits (width b0) (stride_w_ l) (kernel_w_ l) (pad_w_ l) ∧
    l' = mkLayer (kernel_h_ l) (kernel_w_ l) (stride_h_ l) (stride_w_ l)
           (pad_h_ l) (pad_w_ l) (channels b0) (height b0) (width b0)
           ((height b0 - 1) * stride_h_ l + kernel_h_ l - 2 * pad_h_ l)
           ((width b0 - 1) * stride_w_ l + kernel_w_ l - 2 * pad_w_ l) ∧
    Blob_Reshape zero t0 (num b0) (channels b0)
      (unpooled_height_ l') (unpooled_width_ l') = Some t0' ∧
    top' = <[0%nat := t0']> top.
Proof.
  unfold Reshape. intros H.
  destruct (bottom !! 0%nat) as [b0|]; simpl in H; [|done].
  destruct (unpooled_dim (height b0) _ _ _) as [uh|] eqn:Eh;
    simpl in H; [|done].
  destruct (unpooled_dim (width b0) _ _ _) as [uw|] eqn:Ew;
    simpl in H; [|done].
  destruct (top !! 0%nat) as [t0|]; simpl in H; [|done].
  destruct (Blob_Reshape zero t0 _ _ _ _) as [t0'|] eqn:Et;
    simpl in H; [|done].
  injection H as <- <-.
  apply unpooled_dim_Some in Eh as [Hh ->].
  apply unpooled_dim_Some in Ew as [Hw ->].
  exists b0, t0, t0'. done.
Qed.

(** Reshaping again for the same input changes nothing: the layer and the
    output blobs that [Reshape] returns are a fixed point of it. *)
Theorem Reshape_idempotent (l l' : Layer) (bottom top top' : list (Blob Dtype)) :
  Reshape zero l bottom top = Some (l', top') →
  Reshape zero l' bottom top' = Some (l', top').
Proof.
  intros H.
  destruct (Reshape_Some _ _ _ _ _ H)
    as (b0 & t0 & t0' & Hb & Ht & Hh & Hw & -> & Et & ->).
  unfold Reshape. rewrite Hb. simpl in *.
  assert (unpooled_dim (height b0) (stride_h_ l) (kernel_h_ l) (pad_h_ l)
          = Some ((height b0 - 1) * stride_h_ l + kernel_h_ l - 2 * pad_h_ l))
    as -> by by apply unpooled_dim_Some.
  assert (unpooled_dim (width b0) (stride_w_ l) (kernel_w_ l) (pad_w_ l)
          = Some ((width b0 - 1) * stride_w_ l + kernel_w_ l - 2 * pad_w_ l))
    as -> by by apply unpooled_dim_Some.
  simpl. destruct top as [|t top]; [done|]. simpl in *.
  injection Ht as ->.
  apply Blob_Reshape_Some in Et as [Hpos Et].
  edestruct (Blob_Reshape_Some zero t0') as [_ Hsome].
  rewrite Hsome; [|split; [exact Hpos|reflexivity]]. simpl. by rewrite Et.
Qed.

(** With no pad, a stride of at least 1 and a kernel of at least 1, the
    output of [Reshape] is no smaller than the input and no smaller than
    the kernel, along each axis. *)
Theorem Reshape_never_shrinks (l l' : Layer) (b0 : Blob Dtype)
    (bottom top top' : list (Blob Dtype)) :
  Reshape zero l (b0 :: bottom) top = Some (l', top') →
  pad_h_ l = 0 → pad_w_ l = 0 →
  1 ≤ stride_h_ l → 1 ≤ stride_w_ l →
  1 ≤ kernel_h_ l → 1 ≤ kernel_w_ l →
  1 ≤ height b0 → 1 ≤ width b0 →
  height b0 ≤ unpooled_height_ l' ∧ kernel_h_ l ≤ unpooled_height_ l' ∧
  width b0 ≤ unpooled_width_ l' ∧ kernel_w_ l ≤ unpooled_width_ l'.
Proof.
  intros H Hph Hpw Hsh Hsw Hkh Hkw Hh Hw.
  destruct (Reshape_Some _ _ _ _ _ H)
    as (b & t0 & t0' & Hb & _ & _ & _ & -> & _).
  injection Hb as <-. simpl. rewrite Hph, Hpw. nia.
Qed.

(** The pad check of [LayerSetUp] does not keep the output dimensions
    non-negative: a square kernel [k] with a pad [p] below it, but above
    its half, is accepted; for a 1 x 1 input the formula of [Reshape] then
    gives [k - 2 * p] along both axes, without overflow, which is negative,
    and [Reshape] does not return: the reshape of the output blob fails. *)
Theorem SetUp_Reshape_negative_output (dflt : ProtoDefaults) (k p : Z)
    (l0 : Layer) (b0 t0 : Blob Dtype) (bottom top : list (Blob Dtype)) :
  0 < p → p < k → k < 2 * p → 2 * k ≤ INT_MAX →
  height b0 = 1 → width b0 = 1 →
  ∃ l,
    LayerSetUp dflt
      (mkParam (Some k) None None (Some p) None None None None None) l0
      = inr l ∧
    unpooled_dim (height b0) (stride_h_ l) (kernel_h_ l) (pad_h_ l)
      = Some (k - 2 * p) ∧
    unpooled_dim (width b0) (stride_w_ l) (kernel_w_ l) (pad_w_ l)
      = Some (k - 2 * p) ∧
    k - 2 * p < 0 ∧
    Reshape zero l (b0 :: bottom) (t0 :: top) = None.
Proof.
  intros Hp Hpk Hk2 Hmax Hh Hw.
  assert (int_of_uint32 k = k) as Ek
    by (apply int_of_uint32_small; unfold INT_MAX in *; lia).
  assert (int_of_uint32 p = p) as Ep
    by (apply int_of_uint32_small; unfold INT_MAX in *; lia).
  destruct (LayerSetUp_accepts dflt
              (mkParam (Some k) None None (Some p) None None None None None)
              l0) as [l Hl];
    unfold resolve_kernel, resolve_pad; simpl; rewrite ?Ek, ?Ep;
    try done; try lia.
  { right. done. }
  { right. done. }
  pose proof (LayerSetUp_inr _ _ _ _ Hl) as El.
  unfold resolve_kernel, resolve_pad in El. simpl in El.
  rewrite Ek, Ep in El. subst l.
  assert (∀ s, unpooled_dim 1 s k p = Some (k - 2 * p)) as Hdim.
  { intros s. apply unpooled_dim_Some. unfold dim_fits, fits_int.
    unfold INT_MAX, INT_MIN in *. split; [|lia]. repeat split; lia. }
  eexists. split; [exact Hl|]. simpl. rewrite Hh, Hw, !Hdim.
  split; [done|]. split; [done|]. split; [lia|].
  unfold Reshape. simpl. rewrite Hh, Hw, !Hdim. simpl.
  destruct (Blob_Reshape zero t0 _ _ _ _) as [t0'|] eqn:Et; [|done].
  apply Blob_Reshape_Some in Et as [Hpos _]. lia.
Qed.

End ReshapeMore.

Lemma Reshape_idempotent_witness :
  Reshape 0 (mkLayer 2 2 2 2 0 0 1 2 2 4 4) [scenario_input]
    [scenario_reshaped]
  = Some (mkLayer 2 2 2 2 0 0 1 2 2 4 4, [scenario_reshaped]).
Proof.
  apply (Reshape_idempotent 0 (mkLayer 2 2 2 2 0 0 0 0 0 0 0) _
           [scenario_input] [scenario_output]).
  reflexivity.
Defined.

Lemma Reshape_never_shrinks_witness :
  height scenario_input ≤ 4 ∧ 2 ≤ 4 ∧ width scenario_input ≤ 4 ∧ 2 ≤ 4.
Proof.
  apply (Reshape_never_shrinks 0 (mkLayer 2 2 2 2 0 0 0 0 0 0 0)
           (mkLayer 2 2 2 2 0 0 1 2 2 4 4) scenario_input []
           [scenario_output] [scenario_reshaped]);
    simpl; (reflexivity || lia).
Defined.

Lemma SetUp_Reshape_negative_output_witness :
  ∃ l,
    LayerSetUp caffe_defaults
      (mkParam (Some 3) None None (Some 2) None None None None None)
      fresh_layer = inr l ∧
    unpooled_dim (height (mkBlob 1 1 1 1 [7] [0]))
      (stride_h_ l) (kernel_h_ l) (pad_h_ l) = Some (3 - 2 * 2) ∧
    unpooled_dim (width (mkBlob 1 1 1 1 [7] [0]))
      (stride_w_ l) (kernel_w_ l) (pad_w_ l) = Some (3 - 2 * 2) ∧
    3 - 2 * 2 < 0 ∧
    Reshape 0 l [mkBlob 1 1 1 1 [7] [0]] [scenario_output] = None.
Proof.
  apply (SetUp_Reshape_negative_output 0 caffe_defaults 3 2 fresh_layer
           (mkBlob 1 1 1 1 [7] [0]) scenario_output [] []);
    unfold INT_MAX; simpl; (reflexivity || lia).
Defined.

(** ** More on the forward pass *)

Section ForwardMore.

Context {Dtype : Type}.
Variable zero : Dtype.
Variable to_int : Dtype → Z.

(** The forward pass by slices in memory order: slice [s] of the output is
    written from slice [s] of the input and of the mask. *)
Lemma Forward_cpu_flat (l : Layer) (b0 b1 t0 : Blob Dtype)
    (bottom top : list (Blob Dtype)) :
  forward_ready l b0 b1 t0 →
  (∀ m, m ∈ cpu_data b1 → 0 ≤ to_int m < height t0 * width t0) →
  ∃ out,
    Forward_cpu zero to_int l (b0 :: b1 :: bottom) (t0 :: top) =
      Some (set_data t0 out :: top) ∧
    Z.of_nat (length out) = count t0 ∧
    ∀ s t,
      0 ≤ s < num b0 * channels b0 → 0 ≤ t < height t0 * width t0 →
      (∀ i, 0 ≤ i < height b0 * width b0 →
         mask_index to_int (cpu_data b1) (s * (height b0 * width b0) + i)
           = Some t →
         (∀ j, i < j < height b0 * width b0 →
            mask_index to_int (cpu_data b1) (s * (height b0 * width b0) + j)
              ≠ Some t) →
         load out (s * (height t0 * width t0) + t) =
           load (cpu_data b0) (s * (height b0 * width b0) + i)) ∧
      ((∀ i, 0 ≤ i < height b0 * width b0 →
          mask_index to_int (cpu_data b1) (s * (height b0 * width b0) + i)
            ≠ Some t) →
       load out (s * (height t0 * width t0) + t) = Some zero).
Proof.
  intros (Hb0 & Hb1 & Ht0 & Hshape & Hn & Hc & Hlc & Hlh & Hlw) Hmask.
  destruct Hb0 as (HN & HC & HH & HW & Hlen0).
  destruct Hb1 as (_ & _ & _ & _ & Hlen1).
  destruct Ht0 as (_ & _ & HUH & HUW & Hlent).
  injection Hshape as Hn1 Hc1 Hh1 Hw1.
  unfold count in *. rewrite Hn1, Hc1, Hh1, Hw1 in Hlen1.
  rewrite Hn, Hc in Hlent.
  unfold Forward_cpu, for_int. simpl.
  unfold count. rewrite Hn, Hc, <- Hlent, caffe_set_all. simpl.
  rewrite Hlc, Hlh, Hlw, for_loop_nested_const.
  edestruct (scatter_slices to_int (cpu_data b0) (cpu_data b1)
               (height b0 * width b0) (height t0 * width t0)
               (num b0 * channels b0))
    as (out & Hrun & Hlen & _ & Hslices);
    [| | | | | | exact Hmask | | rewrite Hrun].
  - intros st. simpl. rewrite for_loop_row_major.
    rewrite Z2Nat.inj_mul by done.
    replace (offset b0 0 1 0 0) with (height b0 * width b0)
      by (unfold offset; lia).
    replace (offset b1 0 1 0 0) with (height b0 * width b0)
      by (unfold offset; rewrite Hh1, Hw1; lia).
    replace (offset t0 0 1 0 0) with (height t0 * width t0)
      by (unfold offset; lia).
    reflexivity.
  - lia.
  - lia.
  - lia.
  - lia.
  - rewrite length_replicate. lia.
  - rewrite Nat2Z.inj_mul. lia.
  - simpl. exists out. split; [done|].
    rewrite length_replicate in Hlen. split; [by rewrite Hlen|].
    intros s t Hs Ht.
    rewrite Nat2Z.inj_mul, !Z2Nat.id in Hslices by done.
    destruct (Hslices s t Hs Ht) as [Hhit Hmiss]. split; [done|].
    intros Hnone. rewrite Hmiss by done. apply load_replicate. nia.
Qed.

(** The forward pass does not read the output buffer: whatever it held
    before, the result is the same. *)
Theorem Forward_cpu_ignores_old_output (l : Layer) (t0 : Blob Dtype)
    (d d' : list Dtype) (bottom top : list (Blob Dtype)) :
  Z.of_nat (length d) = count t0 → Z.of_nat (length d') = count t0 →
  Forward_cpu zero to_int l bottom (set_data t0 d :: top) =
  Forward_cpu zero to_int l bottom (set_data t0 d' :: top).
Proof.
  intros Hd Hd'. unfold Forward_cpu. simpl.
  change (count (set_data t0 d)) with (count t0).
  change (count (set_data t0 d')) with (count t0).
  assert (caffe_set (count t0) zero d = Some (replicate (length d) zero))
    as -> by (rewrite <- Hd; apply caffe_set_all).
  assert (caffe_set (count t0) zero d' = Some (replicate (length d) zero))
    as ->.
  { rewrite <- Hd', caffe_set_all. do 2 f_equal. lia. }
  reflexivity.
Qed.

(** With distinct mask entries no write of a slice is overwritten. *)
Lemma Forward_cpu_flat_distinct (l : Layer) (b0 b1 t0 : Blob Dtype)
    (bottom top : list (Blob Dtype)) :
  forward_ready l b0 b1 t0 →
  (∀ m, m ∈ cpu_data b1 → 0 ≤ to_int m < height t0 * width t0) →
  mask_distinct to_int b1 →
  ∃ out,
    Forward_cpu zero to_int l (b0 :: b1 :: bottom) (t0 :: top) =
      Some (set_data t0 out :: top) ∧
    Z.of_nat (length out) = count t0 ∧
    ∀ s i, 0 ≤ s < num b0 * channels b0 → 0 ≤ i < height b0 * width b0 →
      ∃ m v,
        load (cpu_data b1) (s * (height b0 * width b0) + i) = Some m ∧
        load (cpu_data b0) (s * (height b0 * width b0) + i) = Some v ∧
        load out (s * (height t0 * width t0) + to_int m) = Some v.
Proof.
  intros Hready Hmask Hdist.
  destruct (Forward_cpu_flat l b0 b1 t0 bottom top Hready Hmask)
    as (out & Hrun & Hlen & Hout).
  exists out. split; [done|]. split; [done|]. intros s i Hs Hi.
  destruct Hready as (Hb0 & Hb1 & _ & Hshape & _).
  destruct Hb0 as (HN & HC & HH & HW & Hlen0).
  destruct Hb1 as (_ & _ & _ & _ & Hlen1).
  injection Hshape as Hn1 Hc1 Hh1 Hw1.
  unfold count in *. rewrite Hn1, Hc1, Hh1, Hw1 in Hlen1.
  destruct (load_in_range (cpu_data b1) (s * (height b0 * width b0) + i))
    as [m Hm]; [nia|].
  destruct (load_in_range (cpu_data b0) (s * (height b0 * width b0) + i))
    as [v Hv]; [nia|].
  exists m, v. split; [done|]. split; [done|].
  destruct (Hout s (to_int m)) as [Hhit _]; [done| |].
  { apply Hmask. eauto using load_elem_of. }
  rewrite <- Hv. apply Hhit; [done|unfold mask_index; by rewrite Hm|].
  intros j Hj Heq.
  apply (Hdist s i j); rewrite ?Hn1, ?Hc1, ?Hh1, ?Hw1; try lia.
  rewrite Heq. unfold mask_index. by rewrite Hm.
Qed.

(** On a mask whose entries are in range and pairwise distinct within each
    slice, every input value is found in the output at the index its mask
    entry names. *)
Theorem Forward_cpu_distinct_mask (l : Layer) (b0 b1 t0 : Blob Dtype)
    (bottom top : list (Blob Dtype)) :
  forward_ready l b0 b1 t0 →
  (∀ m, m ∈ cpu_data b1 → 0 ≤ to_int m < height t0 * width t0) →
  mask_distinct to_int b1 →
  ∃ out,
    Forward_cpu zero to_int l (b0 :: b1 :: bottom) (t0 :: top) =
      Some (set_data t0 out :: top) ∧
    ∀ s i, 0 ≤ s < num b0 * channels b0 → 0 ≤ i < height b0 * width b0 →
      ∃ m v,
        load (cpu_data b1) (s * (height b0 * width b0) + i) = Some m ∧
        load (cpu_data b0) (s * (height b0 * width b0) + i) = Some v ∧
        load out (s * (height t0 * width t0) + to_int m) = Some v.
Proof.
  intros Hready Hmask Hdist.
  destruct (Forward_cpu_flat_distinct l b0 b1 t0 bottom top Hready Hmask Hdist)
    as (out & Hrun & _ & Hout).
  by exists out.
Qed.

End ForwardMore.

(** Among finitely many positions, either none has the property or there
    is a last one that has it. *)
Lemma last_position (Q : Z → Prop) `{∀ i, Decision (Q i)} (n : nat) :
  (∀ i, 0 ≤ i < Z.of_nat n → ¬ Q i) ∨
  (∃ i, 0 ≤ i < Z.of_nat n ∧ Q i ∧ ∀ j, i < j < Z.of_nat n → ¬ Q j).
Proof.
  induction n as [|n IH]; [left; lia|].
  destruct (decide (Q (Z.of_nat n))) as [Hq|Hq].
  { right. exists (Z.of_nat n). split; [lia|]. split; [done|]. lia. }
  destruct IH as [Hnone|(i & Hi & Hqi & Hlast)].
  - left. intros i Hi. destruct (decide (i = Z.of_nat n)) as [->|]; [done|].
    apply Hnone. lia.
  - right. exists i. split; [lia|]. split; [done|]. intros j Hj.
    destruct (decide (j = Z.of_nat n)) as [->|]; [done|]. apply Hlast. lia.
Qed.

Section ForwardValues.

Context {Dtype : Type}.
Variable zero : Dtype.
Variable to_int : Dtype → Z.

(** The forward pass invents no value and moves none across slices: every
    output element is zero, or the input value of a position of the same
    slice whose mask entry is the element's index. *)
Theorem Forward_cpu_values_from_input (l : Layer) (b0 b1 t0 : Blob Dtype)
    (bottom top : list (Blob Dtype)) :
  forward_ready l b0 b1 t0 →
  (∀ m, m ∈ cpu_data b1 → 0 ≤ to_int m < height t0 * width t0) →
  ∃ out,
    Forward_cpu zero to_int l (b0 :: b1 :: bottom) (t0 :: top) =
      Some (set_data t0 out :: top) ∧
    ∀ s t, 0 ≤ s < num b0 * channels b0 → 0 ≤ t < height t0 * width t0 →
      load out (s * (height t0 * width t0) + t) = Some zero ∨
      ∃ i, 0 ≤ i < height b0 * width b0 ∧
           mask_index to_int (cpu_data b1) (s * (height b0 * width b0) + i)
             = Some t ∧
           load out (s * (height t0 * width t0) + t) =
             load (cpu_data b0) (s * (height b0 * width b0) + i).
Proof.
  intros Hready Hmask.
  destruct (Forward_cpu_flat zero to_int l b0 b1 t0 bottom top Hready Hmask)
    as (out & Hrun & _ & Hout).
  exists out. split; [done|]. intros s t Hs Ht.
  destruct (Hout s t Hs Ht) as [Hhit Hmiss].
  destruct Hready as ((_ & _ & HH & HW & _) & _).
  destruct (last_position
              (λ i, mask_index to_int (cpu_data b1)
                      (s * (height b0 * width b0) + i) = Some t)
              (Z.to_nat (height b0 * width b0)))
    as [Hnone|(i & Hi & Hq & Hlast)].
  - left. apply Hmiss. intros i Hi. apply Hnone. lia.
  - right. exists i. split; [lia|]. split; [done|].
    apply Hhit; [lia|done|]. intros j Hj. apply Hlast. lia.
Qed.

(** [Reshape] prepares the forward pass: on a feature map and a mask of the
    same shape, with buffers of the size of the shape, and output
    dimensions that are not negative, the forward pass on the reshaped
    layer and output returns for every mask in range, and the output
    buffer has one element per output position. *)
Theorem Reshape_then_Forward_cpu (l l' : Layer) (b0 b1 t0 : Blob Dtype)
    (bottom top top' : list (Blob Dtype)) :
  data_sized b0 → data_sized b1 →
  (num b1, channels b1, height b1, width b1) =
  (num b0, channels b0, height b0, width b0) →
  Reshape zero l (b0 :: b1 :: bottom) (t0 :: top) = Some (l', top') →
  0 ≤ unpooled_height_ l' → 0 ≤ unpooled_width_ l' →
  (∀ m, m ∈ cpu_data b1 →
     0 ≤ to_int m < unpooled_height_ l' * unpooled_width_ l') →
  ∃ t0' out,
    top' = t0' :: top ∧
    Forward_cpu zero to_int l' (b0 :: b1 :: bottom) top' =
      Some (set_data t0' out :: top) ∧
    Z.of_nat (length out) =
      num b0 * channels b0 * unpooled_height_ l' * unpooled_width_ l'.
Proof.
  intros Hb0 Hb1 Hshape H Huh Huw Hmask.
  destruct (Reshape_Some _ _ _ _ _ _ H)
    as (b & t & t0' & Hb & Ht & _ & _ & El & Et & ->).
  injection Hb as <-. injection Ht as <-.
  apply Blob_Reshape_Some in Et as [_ Et].
  subst t0'. set (t0'' := mkBlob _ _ _ _ _ _).
  assert (forward_ready l' b0 b1 t0'') as Hready.
  { unfold forward_ready. split; [done|]. split; [done|].
    destruct Hb0 as (HN & HC & _). split.
    - unfold data_sized, count, t0''. simpl.
      rewrite length_replicate. repeat split; try done. nia.
    - rewrite El. done. }
  destruct (Forward_cpu_flat zero to_int l' b0 b1 t0'' bottom top Hready)
    as (out & Hrun & Hlen & _); [done|].
  exists t0'', out. split; [done|]. split; [done|]. by rewrite Hlen.
Qed.

End ForwardValues.

Lemma Forward_cpu_ignores_old_output_witness :
  Forward_cpu 0 id scenario_layer [scenario_input; scenario_mask]
    [set_data scenario_output (replicate 16 1)] =
  Forward_cpu 0 id scenario_layer [scenario_input; scenario_mask]
    [set_data scenario_output (replicate 16 2)].
Proof.
  apply (Forward_cpu_ignores_old_output 0 id scenario_layer scenario_output
           (replicate 16 1) (replicate 16 2)
           [scenario_input; scenario_mask] []);
    reflexivity.
Defined.

(** ** More on the backward pass *)

Section BackwardMore.

Context {Dtype : Type}.
Variable zero : Dtype.
Variable to_int : Dtype → Z.

(** With propagation enabled the backward pass gathers one slice per batch
    item: the first [num] slices of the input gradient, in memory order,
    are gathered from the upstream gradient through the mask, each from
    the slice of the same rank, and every element past them is zero.
    Neither the feature map, nor the mask, nor any other blob changes. *)
Theorem Backward_cpu_leading_slices_only (l : Layer) (t0 b0 b1 : Blob Dtype)
    (top bottom : list (Blob Dtype)) (propagate_down : list bool) :
  backward_ready l t0 b0 b1 →
  0 < channels b0 →
  (∀ m, m ∈ cpu_data b1 → 0 ≤ to_int m < height t0 * width t0) →
  ∃ g,
    Backward_cpu zero to_int l (t0 :: top) (true :: propagate_down)
      (b0 :: b1 :: bottom) = Some (set_diff b0 g :: b1 :: bottom) ∧
    Z.of_nat (length g) = count b0 ∧
    (∀ s i, 0 ≤ s < num b0 → 0 ≤ i < height b0 * width b0 →
       ∃ m, load (cpu_data b1) (s * (height b0 * width b0) + i) = Some m ∧
            load g (s * (height b0 * width b0) + i) =
            load (cpu_diff t0) (s * (height t0 * width t0) + to_int m)) ∧
    (∀ a, num b0 * (height b0 * width b0) ≤ a < count b0 →
       load g a = Some zero).
Proof. apply Backward_cpu_first_slices. Qed.

(** On an input of one channel the backward pass is the gather of every
    (batch, channel) slice: position [i] of slice [(n, 0)] of the input
    gradient is the upstream gradient of that slice at the mask entry of
    [i]. *)
Theorem Backward_cpu_single_channel (l : Layer) (t0 b0 b1 : Blob Dtype)
    (top bottom : list (Blob Dtype)) (propagate_down : list bool) :
  backward_ready l t0 b0 b1 →
  channels b0 = 1 →
  (∀ m, m ∈ cpu_data b1 → 0 ≤ to_int m < height t0 * width t0) →
  ∃ g,
    Backward_cpu zero to_int l (t0 :: top) (true :: propagate_down)
      (b0 :: b1 :: bottom) = Some (set_diff b0 g :: b1 :: bottom) ∧
    Z.of_nat (length g) = count b0 ∧
    ∀ n i, 0 ≤ n < num b0 → 0 ≤ i < height b0 * width b0 →
      ∃ m, load (cpu_data b1) (offset b1 n 0 0 0 + i) = Some m ∧
           load g (offset b0 n 0 0 0 + i) =
           load (cpu_diff t0) (offset t0 n 0 0 0 + to_int m).
Proof.
  intros Hready Hc Hmask.
  destruct (Backward_cpu_first_slices zero to_int l t0 b0 b1 top bottom
              propagate_down Hready) as (g & Hrun & Hlen & Hg & _);
    [lia|done|].
  exists g. split; [done|]. split; [done|]. intros n i Hn Hi.
  destruct Hready as (_ & _ & _ & Hshape & _ & Hct & _).
  injection Hshape as Hn1 Hc1 Hh1 Hw1.
  replace (offset b0 n 0 0 0) with (n * (height b0 * width b0))
    by (unfold offset; rewrite Hc; lia).
  replace (offset b1 n 0 0 0) with (n * (height b0 * width b0))
    by (unfold offset; rewrite Hc1, Hh1, Hw1, Hc; lia).
  replace (offset t0 n 0 0 0) with (n * (height t0 * width t0))
    by (unfold offset; rewrite Hct, Hc; lia).
  by apply Hg.
Qed.

(** With propagation enabled the backward pass does not read the input
    gradient buffer: whatever it held before, the result is the same. *)
Theorem Backward_cpu_ignores_old_gradient (l : Layer) (b0 : Blob Dtype)
    (d d' : list Dtype) (top bottom : list (Blob Dtype))
    (propagate_down : list bool) :
  Z.of_nat (length d) = count b0 → Z.of_nat (length d') = count b0 →
  Backward_cpu zero to_int l top (true :: propagate_down)
    (set_diff b0 d :: bottom) =
  Backward_cpu zero to_int l top (true :: propagate_down)
    (set_diff b0 d' :: bottom).
Proof.
  intros Hd Hd'. unfold Backward_cpu. simpl.
  change (count (set_diff b0 d)) with (count b0).
  change (count (set_diff b0 d')) with (count b0).
  assert (caffe_set (count b0) zero d = Some (replicate (length d) zero))
    as -> by (rewrite <- Hd; apply caffe_set_all).
  assert (caffe_set (count b0) zero d' = Some (replicate (length d) zero))
    as ->.
  { rewrite <- Hd', caffe_set_all. do 2 f_equal. lia. }
  reflexivity.
Qed.

(** Forward, then backward on the forward output as upstream gradient, on
    a mask in range with distinct entries per slice. *)
Lemma roundtrip_flat (l : Layer) (b0 b1 t0 : Blob Dtype)
    (bottom top : list (Blob Dtype)) (propagate_down : list bool) :
  forward_ready l b0 b1 t0 →
  Z.of_nat (length (cpu_diff b0)) = count b0 →
  0 < channels b0 →
  (∀ m, m ∈ cpu_data b1 → 0 ≤ to_int m < height t0 * width t0) →
  mask_distinct to_int b1 →
  ∃ out g,
    Forward_cpu zero to_int l (b0 :: b1 :: bottom) (t0 :: top) =
      Some (set_data t0 out :: top) ∧
    Backward_cpu zero to_int l (set_diff (set_data t0 out) out :: top)
      (true :: propagate_down) (b0 :: b1 :: bottom) =
      Some (set_diff b0 g :: b1 :: bottom) ∧
    Z.of_nat (length g) = count b0 ∧
    (∀ a, 0 ≤ a < num b0 * (height b0 * width b0) →
       is_Some (load g a) ∧ load g a = load (cpu_data b0) a) ∧
    (∀ a, num b0 * (height b0 * width b0) ≤ a < count b0 →
       load g a = Some zero).
Proof.
  intros Hready Hdiff Hc Hmask Hdist.
  destruct (Forward_cpu_flat_distinct zero to_int l b0 b1 t0 bottom top
              Hready Hmask Hdist) as (out & Hfwd & Hlen & Hout).
  destruct Hready as (Hb0 & Hb1 & Ht0 & Hshape & Hn & Hct & Hl).
  destruct (Backward_cpu_first_slices zero to_int l
              (set_diff (set_data t0 out) out) b0 b1 top bottom
              propagate_down) as (g & Hbwd & Hlg & Hg & Hrest); [|done|done|].
  { unfold backward_ready. split.
    { destruct Ht0 as (? & ? & ? & ? & _). by repeat split. }
    split; [|done].
    destruct Hb0 as (? & ? & ? & ? & _). by repeat split. }
  exists out, g. split; [done|]. split; [done|]. split; [done|].
  split; [|done]. intros a Ha.
  destruct Hb0 as (HN & HC & HH & HW & _).
  assert (0 < height b0 * width b0) as HP by nia.
  pose proof (Z.div_mod a (height b0 * width b0)) as Hdm.
  pose proof (Z.mod_pos_bound a (height b0 * width b0) HP) as Hmod.
  set (s := a `div` (height b0 * width b0)) in *.
  set (i := a `mod` (height b0 * width b0)) in *.
  assert (0 ≤ s < num b0) as Hs by nia.
  replace a with (s * (height b0 * width b0) + i) by lia.
  destruct (Hg s i Hs Hmod) as (m & Hm & Hgm).
  destruct (Hout s i) as (m' & v & Hm' & Hv & Hov); [nia|done|].
  rewrite Hm in Hm'. injection Hm' as <-.
  simpl in Hgm. rewrite Hgm, Hov, Hv. eauto.
Qed.

(** The round trip recovers the leading slices only: after the forward
    pass and the backward pass on its output, the first [num] slices of
    the input gradient, in memory order, are the input values, and every
    later element is zero. *)
Theorem roundtrip_leading_slices (l : Layer) (b0 b1 t0 : Blob Dtype)
    (bottom top : list (Blob Dtype)) (propagate_down : list bool) :
  forward_ready l b0 b1 t0 →
  Z.of_nat (length (cpu_diff b0)) = count b0 →
  0 < channels b0 →
  (∀ m, m ∈ cpu_data b1 → 0 ≤ to_int m < height t0 * width t0) →
  mask_distinct to_int b1 →
  ∃ out g,
    Forward_cpu zero to_int l (b0 :: b1 :: bottom) (t0 :: top) =
      Some (set_data t0 out :: top) ∧
    Backward_cpu zero to_int l (set_diff (set_data t0 out) out :: top)
      (true :: propagate_down) (b0 :: b1 :: bottom) =
      Some (set_diff b0 g :: b1 :: bottom) ∧
    (∀ a, 0 ≤ a < num b0 * (height b0 * width b0) →
       load g a = load (cpu_data b0) a) ∧
    (∀ a, num b0 * (height b0 * width b0) ≤ a < count b0 →
       load g a = Some zero).
Proof.
  intros Hready Hdiff Hc Hmask Hdist.
  destruct (roundtrip_flat l b0 b1 t0 bottom top propagate_down
              Hready Hdiff Hc Hmask Hdist)
    as (out & g & Hfwd & Hbwd & _ & Hlead & Hrest).
  exists out, g. split; [done|]. split; [done|]. split; [|done].
  intros a Ha. by apply Hlead.
Qed.

Lemma load_of_nat (b : list Dtype) (k : nat) : load b (Z.of_nat k) = b !! k.
Proof.
  unfold load. destruct (Z.leb_spec 0 (Z.of_nat k)); [|lia].
  by rewrite Nat2Z.id.
Qed.

(** On an input of one channel the round trip is exact: the input gradient
    after the forward pass and the backward pass on its output is the
    input buffer, element for element. *)
Theorem roundtrip_single_channel (l : Layer) (b0 b1 t0 : Blob Dtype)
    (bottom top : list (Blob Dtype)) (propagate_down : list bool) :
  forward_ready l b0 b1 t0 →
  Z.of_nat (length (cpu_diff b0)) = count b0 →
  channels b0 = 1 →
  (∀ m, m ∈ cpu_data b1 → 0 ≤ to_int m < height t0 * width t0) →
  mask_distinct to_int b1 →
  ∃ out,
    Forward_cpu zero to_int l (b0 :: b1 :: bottom) (t0 :: top) =
      Some (set_data t0 out :: top) ∧
    Backward_cpu zero to_int l (set_diff (set_data t0 out) out :: top)
      (true :: propagate_down) (b0 :: b1 :: bottom) =
      Some (set_diff b0 (cpu_data b0) :: b1 :: bottom).
Proof.
  intros Hready Hdiff Hc Hmask Hdist.
  destruct (roundtrip_flat l b0 b1 t0 bottom top propagate_down
              Hready Hdiff) as (out & g & Hfwd & Hbwd & Hlen & Hlead & _);
    [lia|done|done|].
  exists out. split; [done|]. rewrite Hbwd. do 3 f_equal.
  destruct Hready as ((HN & HC & HH & HW & Hlen0) & _).
  unfold count in *. rewrite Hc in *.
  apply list_eq. intros k.
  destruct (decide (k < length g)%nat) as [Hk|Hk].
  - destruct (Hlead (Z.of_nat k)) as [_ Heq]; [lia|].
    by rewrite !load_of_nat in Heq.
  - rewrite !lookup_ge_None_2; [done|lia|lia].
Qed.

End BackwardMore.

(** ** The properties on the scenarios *)

Lemma scenario_mask_distinct_ok : mask_distinct id scenario_mask_distinct.
Proof.
  intros s i j Hs Hij Hj. simpl in *.
  assert (s = 0) as -> by lia.
  assert (i = 0 ∨ i = 1 ∨ i = 2) as Hi by lia.
  assert (j = 1 ∨ j = 2 ∨ j = 3) as Hj' by lia.
  destruct Hi as [-> | [-> | ->]], Hj' as [-> | [-> | ->]];
    first [lia | discriminate].
Defined.

Lemma two_channel_mask_distinct_ok : mask_distinct id two_channel_mask.
Proof. intros s i j Hs Hij Hj. simpl in *. lia. Defined.

Lemma Forward_cpu_distinct_mask_witness :
  ∃ out,
    Forward_cpu 0 id scenario_layer [scenario_input; scenario_mask_distinct]
      [scenario_output] = Some [set_data scenario_output out] ∧
    load out 10 = Some 9.
Proof.
  destruct (Forward_cpu_distinct_mask 0 id scenario_layer scenario_input
              scenario_mask_distinct scenario_output [] [])
    as (out & Hrun & Hout);
    [shapes_ok|mask_in_range|exact scenario_mask_distinct_ok|].
  exists out. split; [exact Hrun|].
  destruct (Hout 0 2) as (m & v & Hm & Hv & Hov); [simpl; lia..|].
  simpl in Hm, Hv. injection Hm as <-. injection Hv as <-. exact Hov.
Defined.

Lemma Forward_cpu_values_from_input_witness :
  ∃ out,
    Forward_cpu 0 id scenario_layer [scenario_input; scenario_mask]
      [scenario_output] = Some [set_data scenario_output out] ∧
    (load out 5 = Some 0 ∨
     ∃ i, 0 ≤ i < 4 ∧
          mask_index id (cpu_data scenario_mask) i = Some 5 ∧
          load out 5 = load (cpu_data scenario_input) i).
Proof.
  destruct (Forward_cpu_values_from_input 0 id scenario_layer scenario_input
              scenario_mask scenario_output [] [])
    as (out & Hrun & Hout); [shapes_ok|mask_in_range|].
  exists out. split; [exact Hrun|].
  exact (Hout 0 5 ltac:(simpl; lia) ltac:(simpl; lia)).
Defined.

Lemma Reshape_then_Forward_cpu_witness :
  ∃ t0' out,
    [scenario_reshaped] = [t0'] ∧
    Forward_cpu 0 id (mkLayer 2 2 2 2 0 0 1 2 2 4 4)
      [scenario_input; scenario_mask_distinct] [scenario_reshaped] =
      Some [set_data t0' out] ∧
    Z.of_nat (length out) = 1 * 1 * 4 * 4.
Proof.
  apply (Reshape_then_Forward_cpu 0 id (mkLayer 2 2 2 2 0 0 0 0 0 0 0)
           (mkLayer 2 2 2 2 0 0 1 2 2 4 4)
           scenario_input scenario_mask_distinct (mkBlob 0 0 0 0 [] [])
           [] [] [scenario_reshaped]);
    [shapes_ok|shapes_ok|reflexivity|reflexivity|simpl; lia|simpl; lia|
     mask_in_range].
Defined.

Lemma Backward_cpu_leading_slices_only_witness :
  ∃ g,
    Backward_cpu 0 id two_channel_layer [mkBlob 1 2 1 1 [3; 4] [5; 7]]
      [true] [two_channel_input; two_channel_mask] =
      Some [set_diff two_channel_input g; two_channel_mask] ∧
    load g 0 = Some 5 ∧ load g 1 = Some 0.
Proof.
  destruct (Backward_cpu_leading_slices_only 0 id two_channel_layer
              (mkBlob 1 2 1 1 [3; 4] [5; 7]) two_channel_input
              two_channel_mask [] [] [])
    as (g & Hrun & _ & Hg & Hrest); [shapes_ok|simpl; lia|mask_in_range|].
  exists g. split; [exact Hrun|]. split.
  - destruct (Hg 0 0) as (m & Hm & Hgm); [simpl; lia..|].
    simpl in Hm. injection Hm as <-. exact Hgm.
  - apply Hrest. unfold count. simpl. lia.
Defined.

Lemma Backward_cpu_single_channel_witness :
  ∃ g,
    Backward_cpu 0 id scenario_layer [scenario_gradient] [true]
      [scenario_input; scenario_mask_distinct] =
      Some [set_diff scenario_input g; scenario_mask_distinct] ∧
    load g 2 = Some 110.
Proof.
  destruct (Backward_cpu_single_channel 0 id scenario_layer
              scenario_gradient scenario_input scenario_mask_distinct
              [] [] [])
    as (g & Hrun & _ & Hg); [shapes_ok|reflexivity|mask_in_range|].
  exists g. split; [exact Hrun|].
  destruct (Hg 0 2) as (m & Hm & Hgm); [simpl; lia..|].
  simpl in Hm. injection Hm as <-. exact Hgm.
Defined.

Lemma Backward_cpu_ignores_old_gradient_witness :
  Backward_cpu 0 id scenario_layer [scenario_gradient] [true]
    [set_diff scenario_input [1; 2; 3; 4]; scenario_mask_distinct] =
  Backward_cpu 0 id scenario_layer [scenario_gradient] [true]
    [set_diff scenario_input [5; 6; 7; 8]; scenario_mask_distinct].
Proof.
  apply (Backward_cpu_ignores_old_gradient 0 id scenario_layer
           scenario_input [1; 2; 3; 4] [5; 6; 7; 8]
           [scenario_gradient] [scenario_mask_distinct] []);
    reflexivity.
Defined.

Lemma roundtrip_leading_slices_witness :
  ∃ out g,
    Forward_cpu 0 id two_channel_layer [two_channel_input; two_channel_mask]
      [mkBlob 1 2 1 1 [8; 8] [8; 8]] =
      Some [set_data (mkBlob 1 2 1 1 [8; 8] [8; 8]) out] ∧
    Backward_cpu 0 id two_channel_layer
      [set_diff (set_data (mkBlob 1 2 1 1 [8; 8] [8; 8]) out) out] [true]
      [two_channel_input; two_channel_mask] =
      Some [set_diff two_channel_input g; two_channel_mask] ∧
    load g 0 = Some 3 ∧ load g 1 = Some 0.
Proof.
  destruct (roundtrip_leading_slices 0 id two_channel_layer two_channel_input
              two_channel_mask (mkBlob 1 2 1 1 [8; 8] [8; 8]) [] [] [])
    as (out & g & Hfwd & Hbwd & Hlead & Hrest);
    [shapes_ok|reflexivity|simpl; lia|mask_in_range|
     exact two_channel_mask_distinct_ok|].
  exists out, g. split; [exact Hfwd|]. split; [exact Hbwd|]. split.
  - apply (Hlead 0). simpl. lia.
  - apply Hrest. unfold count. simpl. lia.
Defined.

Lemma roundtrip_single_channel_witness :
  ∃ out,
    Forward_cpu 0 id scenario_layer [scenario_input; scenario_mask_distinct]
      [scenario_output] = Some [set_data scenario_output out] ∧
    Backward_cpu 0 id scenario_layer
      [set_diff (set_data scenario_output out) out] [true]
      [scenario_input; scenario_mask_distinct] =
      Some [set_diff scenario_input [7; 8; 9; 10]; scenario_mask_distinct].
Proof.
  apply (roundtrip_single_channel 0 id scenario_layer scenario_input
           scenario_mask_distinct scenario_output [] [] []);
    [shapes_ok|reflexivity|reflexivity|mask_in_range|
     exact scenario_mask_distinct_ok].
Defined.
